(** * One ReAct iteration of the on-chain agent executor

    A shallow embedding of the three precompile sketches of the repository

      - [src/agent_executor_precompile.py]  ([runNextIteration])
      - [src/agent_execitor_precompile.py]  ([executeAgent])
      - [src/precompile.py]                 (does not compile)

    and what the code does where the specification states a property of
    the iteration.

    Reading of the source.  The module-level names bound to [{}] in the
    source ([modelRegistry], [reasoningRegistry], [Engines],
    [AgentIterationResult], [IERCAgentTool], [abi]) and [json] stand for
    collaborators that are not part of the repository: the two registries
    are dictionaries held in the world, the encoder and the JSON reader
    are parameters of the development, the two constructors are records,
    and the tools, the model handle, the engine, the parsed step and the
    raw parameters are objects with the attributes the code reads.  What
    the code builds itself behaves as Python has it: [dict.get] answers
    [None] for a key that is absent, a subscript raises [KeyError], and
    reading an attribute raises [AttributeError] on [None], on a
    dictionary literal (line 19 of [agent_executor_precompile.py] reads
    [tool.name] on an entry of [toolsMetadata]) and on a [str] (iterating
    the dictionary [parsedParams] visits its keys, on which the last
    comprehension reads [.value]).  [precompile.py] puts a positional
    argument after a keyword argument (lines 29-31): the module is a
    [SyntaxError] and defines no function. *)

From Stdlib Require Import Strings.String Lists.List Strings.Byte.
From stdpp Require Import base option list gmap strings.

Import ListNotations.
Local Open Scope string_scope.
Local Open Scope list_scope.

(** ** Data model *)

Definition bytes := list Byte.byte.
Definition TypeTag := string.
Definition RawValue := string.

(** An entry of [tool.inputDescription.paramDescriptions]. *)
Record ParamDescription := {
  pd_name : string;
  pd_type : TypeTag
}.

Record InputDescription := {
  paramDescriptions : list ParamDescription
}.

(** A tool object, with the three attributes the code reads.  An entry of
    [toolsMetadata], a dictionary literal of the same three items, is a
    value of this type too; that a dictionary has no attributes is in the
    code that reads them ([noAttribute]). *)
Record Tool := {
  tool_name : string;
  tool_description : string;
  tool_inputDescription : InputDescription
}.

(** An element of [json.parse(nextStep.params).array()]. *)
Record RawParam := {
  raw_name : string;
  raw_value : RawValue
}.

(** What [reasoningEngine.parse] answers: a step for which [isDone()]
    holds, with its [answer], or a tool call with [toolName], [params]
    (JSON text) and [reasoning]. *)
Inductive NextStep :=
| Finished (answer : string)
| ToolInvocation (toolName : string) (params : string) (reasoning : string).

(** The ways an iteration can end without a result: the exceptions the
    interpreter raises for the code's own lookups ([AttributeError] for an
    attribute that is not there, [KeyError] for a subscript), the
    [SyntaxError] of a module that does not compile, and the kinds of the
    error taxonomy.  The source has no [raise] statement, so a kind of the
    taxonomy can only come out of a collaborator. *)
Inductive Failure :=
| UnknownModel
| UnknownReasoningStrategy
| ModelUnavailable
| UnparsableOutput
| UnknownTool
| UnknownParameter (name : string)
| MissingParameter (name : string)
| EncodingError (name : string) (ty : TypeTag) (cause : string)
| AttributeError (attr : string)
| KeyError (key : string)
| SyntaxError.

Definition structured (e : Failure) : bool :=
  match e with
  | AttributeError _ | KeyError _ | SyntaxError => false
  | _ => true
  end.

Module IERCAgentTool.

Record ParamValue := {
  type : TypeTag;
  value : bytes
}.

(** A Python dictionary keeps its keys in the order of their first
    insertion; assigning to a key that is present replaces the value and
    leaves the position. *)
Definition Dict := list (string * ParamValue).

Record Input := {
  params : Dict;
  abiEncodedParams : bytes
}.

End IERCAgentTool.

Import IERCAgentTool.

Fixpoint dict_set (k : string) (v : ParamValue) (d : Dict) : Dict :=
  match d with
  | [] => [(k, v)]
  | (k', v') :: d' =>
      if String.eqb k k' then (k', v) :: d' else (k', v') :: dict_set k v d'
  end.

Fixpoint dict_get (k : string) (d : Dict) : option ParamValue :=
  match d with
  | [] => None
  | (k', v') :: d' => if String.eqb k k' then Some v' else dict_get k d'
  end.

Definition dict_keys (d : Dict) : list string := map fst d.
Definition dict_values (d : Dict) : list ParamValue := map snd d.

(** The keyword arguments the sketches pass to [AgentIterationResult]; a
    keyword that a call does not pass is [None] ([resultParams] is the
    keyword [params] of [precompile.py]). *)
Record AgentIterationResult := {
  isFinalAnswer : bool;
  finalAnswer : option string;
  tool : option Tool;
  toolInput : option Input;
  resultParams : option Dict;
  agentReasoning : option string
}.

(** ** Collaborators *)

Record ModelHandle := {
  run : string -> Failure + string
}.

Record ReasoningEngine := {
  buildPrompt : string -> list Tool -> string -> string -> string;
  parse : string -> Failure + NextStep
}.

Inductive Engines := RE_ACT.

#[global] Instance Engines_eq_dec : EqDecision Engines.
Proof. solve_decision. Defined.

#[global] Instance Engines_countable : Countable Engines.
Proof.
  refine (inj_countable' (fun _ => tt) (fun _ => RE_ACT) _).
  intros []. reflexivity.
Defined.

(** What an iteration does that the properties speak of, in the order it
    is done: the calls to the collaborators and the lookup of the tool. *)
Inductive Event :=
| EvBuildPrompt (basePrompt : string) (tools : list Tool)
                (reasoning : string) (prompt : string)
| EvRun (llmPrompt : string)
| EvParse (llmOutput : string)
| EvToolLookup (toolName : string)
| EvJsonParse (params : string)
| EvEncode (v : RawValue) (ty : TypeTag)
| EvEncodeAll (values : list bytes).

(** [true] for the calls of tool resolution and parameter encoding. *)
Definition resolvesOrEncodes (ev : Event) : bool :=
  match ev with
  | EvToolLookup _ | EvJsonParse _ | EvEncode _ _ | EvEncodeAll _ => true
  | _ => false
  end.

Definition isEncodeAll (ev : Event) : bool :=
  match ev with EvEncodeAll _ => true | _ => false end.

Definition isBuildPrompt (ev : Event) : bool :=
  match ev with EvBuildPrompt _ _ _ _ => true | _ => false end.

(** The objects an iteration can reach: the two module-level registries,
    the list object its [tools] argument refers to, and the calls made so
    far. *)
Record World := {
  modelRegistry : gmap string ModelHandle;
  reasoningRegistry : gmap Engines ReasoningEngine;
  catalog : list Tool;
  trace : list Event
}.

(** ** State and failure *)

Definition M (A : Type) : Type := World -> (Failure + A) * World.

Definition pure {A} (a : A) : M A := fun w => (inr a, w).

Definition throw {A} (e : Failure) : M A := fun w => (inl e, w).

Definition bind {A B} (m : M A) (k : A -> M B) : M B :=
  fun w =>
    match m w with
    | (inl e, w') => (inl e, w')
    | (inr a, w') => k a w'
    end.

Notation "x <- m ;; k" := (bind m (fun x => k))
  (at level 100, m at next level, right associativity).

(** The outcome of a call to a collaborator. *)
Definition lift {A} (r : Failure + A) : M A := fun w => (r, w).

(** The world after some more calls. *)
Definition addTrace (w : World) (evs : list Event) : World :=
  {| modelRegistry := modelRegistry w;
     reasoningRegistry := reasoningRegistry w;
     catalog := catalog w;
     trace := trace w ++ evs |}.

Definition emit (ev : Event) : M unit :=
  fun w => (inr tt, addTrace w [ev]).

(** [modelRegistry.get(modelId)] *)
Definition getModel (modelId : string) : M (option ModelHandle) :=
  fun w => (inr (modelRegistry w !! modelId), w).

(** [reasoningRegistry.get(engine)] *)
Definition getEngine (engine : Engines) : M (option ReasoningEngine) :=
  fun w => (inr (reasoningRegistry w !! engine), w).

(** [for tool in tools]: the argument [tools] refers to the list object of
    the caller, which is the [catalog] of the world. *)
Definition readTools : M (list Tool) :=
  fun w => (inr (catalog w), w).

(** [o.attr]: an attribute of [None] is an [AttributeError]. *)
Definition attribute {A} (o : option A) (attr : string) : M A :=
  match o with
  | Some x => pure x
  | None => throw (AttributeError attr)
  end.

(** [x.attr] where [x] is a dictionary literal or a [str]: neither has
    the attribute, whatever would have been read. *)
Definition noAttribute {A} (attr : string) : M A :=
  throw (AttributeError attr).

(** [d[k]]: a key that is absent is a [KeyError]. *)
Definition subscript {A} (d : gmap string A) (k : string) : M A :=
  match d !! k with
  | Some x => pure x
  | None => throw (KeyError k)
  end.

(** [{key(x): x for x in l}]: a later element replaces an earlier one of
    the same key. *)
Definition indexBy {A} (key : A -> string) (l : list A) : gmap string A :=
  foldl (fun m x => <[key x := x]> m) ∅ l.

(** ** The three sketches *)

Module AgentExecutor.
Section Executor.

(** [abi.encode(value, type)], [abi.encode([...])] and
    [json.parse(text).array()]. *)
Variable abi_encode : RawValue -> TypeTag -> Failure + bytes.
Variable abi_encode_all : list bytes -> Failure + bytes.
Variable json_parse : string -> Failure + list RawParam.

(** lines 14-18 of [agent_executor_precompile.py] *)
Definition toolsMetadataOf (tools : list Tool) : list Tool :=
  map (fun tool =>
         {| tool_name := tool_name tool;
            tool_description := tool_description tool;
            tool_inputDescription := tool_inputDescription tool |}) tools.

(** Line 19 of [agent_executor_precompile.py],
    [{tool.name: tool for tool in toolsMetadata}]: the key of each entry is
    an attribute of a dictionary literal. *)
Fixpoint indexMetadata (toolsMetadata : list Tool)
         (toolsByName : gmap string Tool) : M (gmap string Tool) :=
  match toolsMetadata with
  | [] => pure toolsByName
  | tool :: rest =>
      name <- noAttribute "name" ;;
      indexMetadata rest (<[name := tool]> toolsByName)
  end.

(** The loop [for param in params.array()], with [parsedParams] as the
    accumulator. *)
Fixpoint resolveParams (toolInputByName : gmap string ParamDescription)
         (params : list RawParam) (parsedParams : Dict) : M Dict :=
  match params with
  | [] => pure parsedParams
  | param :: rest =>
      paramDescription <- subscript toolInputByName (raw_name param) ;;
      _ <- emit (EvEncode (raw_value param) (pd_type paramDescription)) ;;
      encoded <- lift (abi_encode (raw_value param) (pd_type paramDescription)) ;;
      resolveParams toolInputByName rest
        (dict_set (raw_name param)
                  {| type := pd_type paramDescription; value := encoded |}
                  parsedParams)
  end.

(** [toolInputByName], [json.parse] and the loop, for a tool object: what
    the sketches do between the tool lookup and their last statements. *)
Definition parseParams (tool : Tool) (params : string) : M Dict :=
  let toolInputByName :=
    indexBy pd_name (paramDescriptions (tool_inputDescription tool)) in
  _ <- emit (EvJsonParse params) ;;
  rawParams <- lift (json_parse params) ;;
  resolveParams toolInputByName rawParams [].

(** [[params.value for params in parsedParams]]: iterating a dictionary
    visits its keys, the names of the parameters, and a [str] has no
    attribute [value]. *)
Fixpoint keyValues (keys : list string) : M (list bytes) :=
  match keys with
  | [] => pure []
  | key :: rest =>
      v <- noAttribute "value" ;;
      values <- keyValues rest ;;
      pure (v :: values)
  end.

(** [abi.encode([params.value for params in parsedParams])]: the argument
    is evaluated before the call is made. *)
Definition encodeParams (parsedParams : Dict) : M bytes :=
  values <- keyValues (dict_keys parsedParams) ;;
  _ <- emit (EvEncodeAll values) ;;
  lift (abi_encode_all values).

(** The parameter resolver and encoder for a tool object: lines 29-40 of
    [runNextIteration], lines 23-34 of [agent_execitor_precompile.py]. *)
Definition resolveAndEncode (tool : Tool) (params : string) : M Input :=
  parsedParams <- parseParams tool params ;;
  abiEncodedParams <- encodeParams parsedParams ;;
  pure {| IERCAgentTool.params := parsedParams;
          abiEncodedParams := abiEncodedParams |}.

Definition finalResult (answer : string) : AgentIterationResult :=
  {| isFinalAnswer := true; finalAnswer := Some answer; tool := None;
     toolInput := None; resultParams := None; agentReasoning := None |}.

Definition toolCallResult (t : Tool) (input : Input) (reasoning : string)
  : AgentIterationResult :=
  {| isFinalAnswer := false; finalAnswer := None; tool := Some t;
     toolInput := Some input; resultParams := None;
     agentReasoning := Some reasoning |}.

(** [agent_executor_precompile.py], lines 10-46.  The argument [tools] is
    read from the world, and [agentReasoning] is [reasoningTrace] here;
    the [match] on the step is the branch on [nextStep.isDone()].  The
    value of [toolsByName.get] is [None] or an entry of [toolsMetadata],
    and line 29 reads [inputDescription] on it. *)
Definition runNextIteration (modelId basePrompt reasoningTrace prompt : string)
  : M AgentIterationResult :=
  llm <- getModel modelId ;;
  reasoningEngine <- getEngine RE_ACT ;;
  tools <- readTools ;;
  let toolsMetadata := toolsMetadataOf tools in
  toolsByName <- indexMetadata toolsMetadata ∅ ;;
  engine <- attribute reasoningEngine "buildPrompt" ;;
  _ <- emit (EvBuildPrompt basePrompt toolsMetadata reasoningTrace prompt) ;;
  let llmPrompt :=
    buildPrompt engine basePrompt toolsMetadata reasoningTrace prompt in
  handle <- attribute llm "run" ;;
  _ <- emit (EvRun llmPrompt) ;;
  llmOutput <- lift (run handle llmPrompt) ;;
  _ <- emit (EvParse llmOutput) ;;
  nextStep <- lift (parse engine llmOutput) ;;
  match nextStep with
  | Finished answer => pure (finalResult answer)
  | ToolInvocation toolName params reasoning =>
      _ <- emit (EvToolLookup toolName) ;;
      match toolsByName !! toolName with
      | None => noAttribute "inputDescription"
      | Some tool =>
          _ <- noAttribute (A := InputDescription) "inputDescription" ;;
          input <- resolveAndEncode tool params ;;
          pure (toolCallResult tool input reasoning)
      end
  end.

(** Lines 11-17 of [agent_execitor_precompile.py]: the tools are indexed
    as they are, by their attribute [name], and handed to the prompt
    builder. *)
Definition askModel (modelId agentDescription reasoningTrace prompt : string)
  : M (gmap string Tool * NextStep) :=
  tools <- readTools ;;
  let toolsByName := indexBy tool_name tools in
  llm <- getModel modelId ;;
  reasoningEngine <- getEngine RE_ACT ;;
  engine <- attribute reasoningEngine "buildPrompt" ;;
  _ <- emit (EvBuildPrompt agentDescription tools reasoningTrace prompt) ;;
  let llmPrompt :=
    buildPrompt engine agentDescription tools reasoningTrace prompt in
  handle <- attribute llm "run" ;;
  _ <- emit (EvRun llmPrompt) ;;
  llmOutput <- lift (run handle llmPrompt) ;;
  _ <- emit (EvParse llmOutput) ;;
  nextStep <- lift (parse engine llmOutput) ;;
  pure (toolsByName, nextStep).

End Executor.
End AgentExecutor.

Import AgentExecutor.

Module Execitor.
Section Executor.

Variable abi_encode : RawValue -> TypeTag -> Failure + bytes.
Variable abi_encode_all : list bytes -> Failure + bytes.
Variable json_parse : string -> Failure + list RawParam.

(** [agent_execitor_precompile.py], lines 10-40 *)
Definition executeAgent
           (modelId agentName agentDescription reasoningTrace prompt : string)
  : M AgentIterationResult :=
  asked <- askModel modelId agentDescription reasoningTrace prompt ;;
  let (toolsByName, nextStep) := asked in
  match nextStep with
  | Finished answer => pure (finalResult answer)
  | ToolInvocation toolName params reasoning =>
      _ <- emit (EvToolLookup toolName) ;;
      t <- attribute (toolsByName !! toolName) "inputDescription" ;;
      parsedParams <- parseParams abi_encode json_parse t params ;;
      abiEncodedParams <- encodeParams abi_encode_all parsedParams ;;
      pure (toolCallResult t
              {| IERCAgentTool.params := parsedParams;
                 abiEncodedParams := abiEncodedParams |} reasoning)
  end.

End Executor.
End Execitor.

Module Precompile.

(** [precompile.py]: lines 29-31 call [IERCAgentTool.ParamValue] with a
    positional argument after a keyword argument, so the module does not
    compile and [executeAgent] is never defined; whoever imports it to
    call the function gets the [SyntaxError], on every input. *)
Definition executeAgent
           (modelId agentName agentDescription reasoningTrace prompt : string)
  : M AgentIterationResult :=
  throw SyntaxError.

End Precompile.

(** ** Notions for the properties *)

(** A computation that only appends to the trace. *)
Definition frames {A} (m : M A) : Prop :=
  forall w, exists evs, (m w).2 = addTrace w evs.

(** A computation whose outcome and calls do not depend on the world it
    starts from. *)
Definition oblivious {A} (m : M A) : Prop :=
  forall w1 w2, exists evs,
    (m w1).1 = (m w2).1 /\
    (m w1).2 = addTrace w1 evs /\ (m w2).2 = addTrace w2 evs.

(** The dictionary that assigning the entries in order builds. *)
Definition dict_of_entries (acc : Dict) (entries : Dict) : Dict :=
  foldl (fun d e => dict_set e.1 e.2 d) acc entries.

Section Resolution.

Variable abi_encode : RawValue -> TypeTag -> Failure + bytes.

(** The index of a schema, as line 29 builds it. *)
Definition toolInputByName (t : Tool) : gmap string ParamDescription :=
  indexBy pd_name (paramDescriptions (tool_inputDescription t)).

(** Lines 35-38 on one raw parameter, when they succeed: the entry that
    is assigned to [parsedParams]. *)
Definition resolvesTo (idx : gmap string ParamDescription)
           (param : RawParam) (entry : string * ParamValue) : Prop :=
  exists d b,
    idx !! raw_name param = Some d /\
    abi_encode (raw_value param) (pd_type d) = inr b /\
    entry = (raw_name param, {| type := pd_type d; value := b |}).

Definition encodeEvents (raw : list RawParam) (entries : Dict) : list Event :=
  zip_with (fun p e => EvEncode (raw_value p) (type e.2)) raw entries.

End Resolution.

(** ** The parsed next step *)

(** The model output of the iteration parses to [nextStep]: both registry
    lookups answer, the model handle answers [llmOutput] to the prompt the
    engine builds, and the engine parses the answer. *)
Definition parsesTo (w : World) (modelId basePrompt reasoningTrace prompt : string)
           (llmPrompt llmOutput : string) (nextStep : NextStep) : Prop :=
  exists handle engine,
    modelRegistry w !! modelId = Some handle /\
    reasoningRegistry w !! RE_ACT = Some engine /\
    llmPrompt = buildPrompt engine basePrompt (toolsMetadataOf (catalog w))
                            reasoningTrace prompt /\
    run handle llmPrompt = inr llmOutput /\
    parse engine llmOutput = inr nextStep.

(** The calls of an iteration up to and including [parse]. *)
Definition askEvents (w : World) (basePrompt reasoningTrace prompt : string)
           (llmPrompt llmOutput : string) : list Event :=
  [EvBuildPrompt basePrompt (toolsMetadataOf (catalog w)) reasoningTrace prompt;
   EvRun llmPrompt; EvParse llmOutput].

Definition payloadOf (r : Failure + AgentIterationResult) : option bytes :=
  match r with
  | inr res => abiEncodedParams <$> toolInput res
  | inl _ => None
  end.

Section Specification.

Variable abi_encode : RawValue -> TypeTag -> Failure + bytes.
Variable abi_encode_all : list bytes -> Failure + bytes.

(** Follows the specification's words, section 4.4: the encoded values of
    the raw parameters, taken in the schema's declared parameter order. *)
Definition spec_schemaOrderValues (schema : list ParamDescription)
           (raw : list RawParam) : option (list bytes) :=
  mapM (fun d =>
          p ← find (fun p => String.eqb (raw_name p) (pd_name d)) raw;
          match abi_encode (raw_value p) (pd_type d) with
          | inr b => Some b
          | inl _ => None
          end) schema.

(** Follows the specification's words: the aggregate encoding of the
    values in schema order. *)
Definition spec_encodedPayload (schema : list ParamDescription)
           (raw : list RawParam) : option bytes :=
  values ← spec_schemaOrderValues schema raw;
  match abi_encode_all values with
  | inr b => Some b
  | inl _ => None
  end.

End Specification.

(** ** A concrete setting: the [transfer] scenario of the specification *)

Module Scenario.

(** An encoder that answers the bytes of the raw text, and joins them. *)
Definition enc (v : RawValue) (ty : TypeTag) : Failure + bytes :=
  inr (list_byte_of_string v).

Definition encAll (values : list bytes) : Failure + bytes :=
  inr (concat values).

Definition amount100 := {| raw_name := "amount"; raw_value := "100" |}.
Definition amount7 := {| raw_name := "amount"; raw_value := "7" |}.
Definition toABC := {| raw_name := "to"; raw_value := "0xABC" |}.
Definition memoHi := {| raw_name := "memo"; raw_value := "hi" |}.

(** A reader that knows four texts. *)
Definition jp (text : string) : Failure + list RawParam :=
  if String.eqb text "amount,to" then inr [amount100; toABC]
  else if String.eqb text "amount" then inr [amount100]
  else if String.eqb text "amount,to,memo" then inr [amount100; toABC; memoHi]
  else if String.eqb text "amount,amount,to" then inr [amount100; amount7; toABC]
  else inr [].

Definition transfer : Tool :=
  {| tool_name := "transfer";
     tool_description := "send tokens";
     tool_inputDescription :=
       {| paramDescriptions :=
            [ {| pd_name := "to"; pd_type := "address" |};
              {| pd_name := "amount"; pd_type := "integer" |} ] |} |}.

(** A model that repeats its prompt. *)
Definition llm : ModelHandle := {| run := fun llmPrompt => inr llmPrompt |}.

(** An engine whose prompt is the task, and that reads the model output
    as the final answer 42, as a call of the tool [swap], or as a call of
    [transfer] with the output as its parameters. *)
Definition reAct : ReasoningEngine :=
  {| buildPrompt := fun _ _ _ prompt => prompt;
     parse := fun llmOutput =>
       if String.eqb llmOutput "final" then inr (Finished "42")
       else if String.eqb llmOutput "exchange"
            then inr (ToolInvocation "swap" "amount,to" "exchange")
            else inr (ToolInvocation "transfer" llmOutput "pay") |}.

Definition world : World :=
  {| modelRegistry := {[ "m" := llm ]};
     reasoningRegistry := {[ RE_ACT := reAct ]};
     catalog := [transfer];
     trace := [] |}.

Definition iteration (modelId prompt : string) :=
  runNextIteration enc encAll jp modelId "agent" "" prompt world.

Definition execitor (prompt : string) :=
  Execitor.executeAgent enc encAll jp "m" "agent" "pays" "" prompt world.

Definition precompile (prompt : string) :=
  Precompile.executeAgent "m" "agent" "pays" "" prompt world.

(** The same world with no tools. *)
Definition bare : World :=
  {| modelRegistry := {[ "m" := llm ]};
     reasoningRegistry := {[ RE_ACT := reAct ]};
     catalog := [];
     trace := [] |}.

Definition bareIteration (modelId prompt : string) :=
  runNextIteration enc encAll jp modelId "agent" "" prompt bare.

Definition execute (modelId prompt : string) :=
  Execitor.executeAgent enc encAll jp modelId "agent" "pays" "" prompt world.

Definition text (s : string) : bytes := list_byte_of_string s.

Definition entry (name : string) (ty : TypeTag) (v : string)
  : string * ParamValue :=
  (name, {| type := ty; value := text v |}).

End Scenario.

(** ** Notions for the further properties *)

Definition isRun (ev : Event) : bool :=
  match ev with EvRun _ => true | _ => false end.

Definition isEncode (ev : Event) : bool :=
  match ev with EvEncode _ _ => true | _ => false end.

Definition isJsonParse (ev : Event) : bool :=
  match ev with EvJsonParse _ => true | _ => false end.

(** How many of the calls are of one kind. *)
Definition countEvents (kind : Event -> bool) (evs : list Event) : nat :=
  length (List.filter kind evs).

(** A computation that makes no call of one kind, and one that makes at
    most one. *)
Definition never {A} (kind : Event -> bool) (m : M A) : Prop :=
  forall w, exists evs,
    (m w).2 = addTrace w evs /\ countEvents kind evs = 0.

Definition atMostOnce {A} (kind : Event -> bool) (m : M A) : Prop :=
  forall w, exists evs,
    (m w).2 = addTrace w evs /\ countEvents kind evs <= 1.

(** The model output of an [executeAgent] call parses to [nextStep]: as
    [parsesTo], with the prompt built from the tools as they are
    (line 15 of [agent_execitor_precompile.py]). *)
Definition asksTo (w : World) (modelId agentDescription reasoningTrace prompt : string)
           (llmPrompt llmOutput : string) (nextStep : NextStep) : Prop :=
  exists handle engine,
    modelRegistry w !! modelId = Some handle /\
    reasoningRegistry w !! RE_ACT = Some engine /\
    llmPrompt = buildPrompt engine agentDescription (catalog w)
                            reasoningTrace prompt /\
    run handle llmPrompt = inr llmOutput /\
    parse engine llmOutput = inr nextStep.

(** The calls of an [executeAgent] call up to and including [parse]. *)
Definition executeEvents (w : World) (agentDescription reasoningTrace prompt : string)
           (llmPrompt llmOutput : string) : list Event :=
  [EvBuildPrompt agentDescription (catalog w) reasoningTrace prompt;
   EvRun llmPrompt; EvParse llmOutput].

(** ** A setting with collaborators that fail *)

Module Faults.

(** An encoder that refuses the text [ten]. *)
Definition enc (v : RawValue) (ty : TypeTag) : Failure + bytes :=
  if String.eqb v "ten" then inl (EncodingError "amount" ty "not a number")
  else inr (list_byte_of_string v).

(** An aggregate encoder that refuses more than one value. *)
Definition encAll (values : list bytes) : Failure + bytes :=
  match values with
  | _ :: _ :: _ => inl (EncodingError "" "tuple" "too many values")
  | _ => inr (concat values)
  end.

Definition amountTen := {| raw_name := "amount"; raw_value := "ten" |}.

(** A reader that knows four texts and refuses the others. *)
Definition jp (text : string) : Failure + list RawParam :=
  if String.eqb text "to,amount,memo"
  then inr [Scenario.toABC; amountTen; Scenario.memoHi]
  else if String.eqb text "to,amount" then inr [Scenario.toABC; Scenario.amount100]
  else if String.eqb text "to" then inr [Scenario.toABC]
  else if String.eqb text "" then inr []
  else inl UnparsableOutput.

(** A model that is down. *)
Definition down : ModelHandle := {| run := fun _ => inl ModelUnavailable |}.

(** An engine that cannot read the output [garbage]. *)
Definition strict : ReasoningEngine :=
  {| buildPrompt := fun _ _ _ prompt => prompt;
     parse := fun llmOutput =>
       if String.eqb llmOutput "garbage" then inl UnparsableOutput
       else inr (ToolInvocation "transfer" llmOutput "pay") |}.

(** A second tool of the name [transfer], with the parameter [to] declared
    twice. *)
Definition transfer2 : Tool :=
  {| tool_name := "transfer";
     tool_description := "send tokens, second edition";
     tool_inputDescription :=
       {| paramDescriptions :=
            [ {| pd_name := "to"; pd_type := "string" |};
              {| pd_name := "to"; pd_type := "address" |} ] |} |}.

Definition world : World :=
  {| modelRegistry := {[ "m" := Scenario.llm; "down" := down ]};
     reasoningRegistry := {[ RE_ACT := strict ]};
     catalog := [Scenario.transfer];
     trace := [] |}.

(** The same with no tools. *)
Definition bare : World :=
  {| modelRegistry := {[ "m" := Scenario.llm; "down" := down ]};
     reasoningRegistry := {[ RE_ACT := strict ]};
     catalog := [];
     trace := [] |}.

(** No tools and no engine registered. *)
Definition noEngine : World :=
  {| modelRegistry := {[ "m" := Scenario.llm ]};
     reasoningRegistry := ∅;
     catalog := [];
     trace := [] |}.

(** The same with two tools of one name. *)
Definition twoTransfers : World :=
  {| modelRegistry := {[ "m" := Scenario.llm ]};
     reasoningRegistry := {[ RE_ACT := strict ]};
     catalog := [Scenario.transfer; transfer2];
     trace := [] |}.

Definition iteration (w : World) (modelId prompt : string) :=
  runNextIteration enc encAll jp modelId "agent" "" prompt w.

Definition execute (w : World) (modelId prompt : string) :=
  Execitor.executeAgent enc encAll jp modelId "agent" "pays" "" prompt w.

End Faults.

(** * Properties *)

#[global] Arguments addTrace : simpl never.

Lemma addTrace_nil w : addTrace w [] = w.
Proof. destruct w; unfold addTrace; simpl. by rewrite app_nil_r. Qed.

Lemma addTrace_app w evs evs' :
  addTrace (addTrace w evs) evs' = addTrace w (evs ++ evs').
Proof. unfold addTrace; simpl. by rewrite app_assoc. Qed.

Ltac mstep :=
  unfold bind, pure, noAttribute, throw, lift, emit, getModel, getEngine,
    readTools, attribute, subscript; simpl.

(** *** Dictionaries *)

Lemma dict_get_set_eq k v d : dict_get k (dict_set k v d) = Some v.
Proof.
  induction d as [|[k' v'] d IH]; simpl.
  - by rewrite String.eqb_refl.
  - destruct (String.eqb k k') eqn:E; simpl; rewrite E; [done | exact IH].
Qed.

Lemma dict_get_set_ne k k' v d :
  k <> k' -> dict_get k (dict_set k' v d) = dict_get k d.
Proof.
  intros Hne. induction d as [|[k0 v0] d IH]; simpl.
  - apply String.eqb_neq in Hne. by rewrite Hne.
  - destruct (String.eqb k' k0) eqn:E; simpl.
    + apply String.eqb_eq in E. subst k0.
      apply String.eqb_neq in Hne. by rewrite Hne.
    + by rewrite IH.
Qed.

Lemma dict_set_fresh k v d :
  k ∉ dict_keys d -> dict_set k v d = d ++ [(k, v)].
Proof.
  induction d as [|[k' v'] d IH]; simpl; intros Hk; [done |].
  apply not_elem_of_cons in Hk as [Hne Hk].
  apply String.eqb_neq in Hne. rewrite Hne. by rewrite IH.
Qed.

Lemma dict_of_entries_NoDup acc entries :
  NoDup (dict_keys (acc ++ entries)) ->
  dict_of_entries acc entries = acc ++ entries.
Proof.
  revert acc. induction entries as [|[k v] entries IH]; intros acc Hnd; simpl.
  - by rewrite app_nil_r.
  - unfold dict_of_entries in *. simpl.
    assert (Hk : k ∉ dict_keys acc).
    { unfold dict_keys in *. rewrite map_app in Hnd. simpl in Hnd.
      apply NoDup_app in Hnd as (_ & Hd & _).
      intros Hin. apply (Hd _ Hin). left. }
    rewrite (dict_set_fresh _ _ _ Hk), IH, <- app_assoc; [done |].
    by rewrite <- app_assoc.
Qed.

Lemma dict_of_entries_app acc e1 e2 :
  dict_of_entries acc (e1 ++ e2) = dict_of_entries (dict_of_entries acc e1) e2.
Proof. unfold dict_of_entries. apply foldl_app. Qed.

Lemma dict_get_of_entries_notin k acc entries :
  k ∉ dict_keys entries ->
  dict_get k (dict_of_entries acc entries) = dict_get k acc.
Proof.
  revert acc. induction entries as [|[k' v'] entries IH]; intros acc Hk; [done |].
  simpl in Hk. apply not_elem_of_cons in Hk as [Hne Hk].
  unfold dict_of_entries in *. simpl. rewrite IH by done.
  by apply dict_get_set_ne.
Qed.

(** The last assignment to a key is the one that is read back. *)
Lemma dict_get_of_entries_last k v acc pre post :
  k ∉ dict_keys post ->
  dict_get k (dict_of_entries acc (pre ++ (k, v) :: post)) = Some v.
Proof.
  intros Hk. rewrite dict_of_entries_app.
  change ((k, v) :: post) with ([(k, v)] ++ post).
  rewrite dict_of_entries_app, dict_get_of_entries_notin by done.
  unfold dict_of_entries at 1. simpl. apply dict_get_set_eq.
Qed.

(** *** Indexes by name *)

Lemma indexBy_snoc {A} (key : A -> string) l x :
  indexBy key (l ++ [x]) = <[key x := x]> (indexBy key l).
Proof. unfold indexBy. by rewrite foldl_app. Qed.

Lemma indexBy_None {A} (key : A -> string) (l : list A) k :
  indexBy key l !! k = None <-> k ∉ map key l.
Proof.
  induction l as [|x l IH] using rev_ind.
  - unfold indexBy; simpl. rewrite lookup_empty. split; [|done].
    intros _ Hin. by apply elem_of_nil in Hin.
  - rewrite indexBy_snoc, map_app, lookup_insert_None, IH. simpl.
    rewrite not_elem_of_app, not_elem_of_cons. split.
    + intros [H1 H2]. repeat split; [done | congruence |].
      intros Hin. by apply elem_of_nil in Hin.
    + intros [H1 [H2 _]]. split; [done | congruence].
Qed.

Lemma indexBy_Some_key {A} (key : A -> string) (l : list A) k x :
  indexBy key l !! k = Some x -> x ∈ l /\ key x = k.
Proof.
  induction l as [|y l IH] using rev_ind.
  - unfold indexBy; simpl. by rewrite lookup_empty.
  - rewrite indexBy_snoc, lookup_insert_Some.
    intros [[Hk Hx] | [Hne Hl]].
    + subst. split; [|done]. apply elem_of_app. right. left.
    + destruct (IH Hl) as [Hin Hkey]. split; [|done].
      apply elem_of_app. by left.
Qed.

Lemma toolsMetadataOf_id tools : toolsMetadataOf tools = tools.
Proof.
  unfold toolsMetadataOf. induction tools as [|[n d i] tools IH]; simpl;
    [done | by rewrite IH].
Qed.

(** *** Frames *)

Lemma frames_pure {A} (a : A) : frames (pure a).
Proof. intros w. exists []. by rewrite addTrace_nil. Qed.

Lemma frames_throw {A} e : frames (@throw A e).
Proof. intros w. exists []. by rewrite addTrace_nil. Qed.

Lemma frames_lift {A} (r : Failure + A) : frames (lift r).
Proof. intros w. exists []. by rewrite addTrace_nil. Qed.

Lemma frames_emit ev : frames (emit ev).
Proof. intros w. by exists [ev]. Qed.

Lemma frames_getModel modelId : frames (getModel modelId).
Proof. intros w. exists []. by rewrite addTrace_nil. Qed.

Lemma frames_getEngine engine : frames (getEngine engine).
Proof. intros w. exists []. by rewrite addTrace_nil. Qed.

Lemma frames_readTools : frames readTools.
Proof. intros w. exists []. by rewrite addTrace_nil. Qed.

Lemma frames_attribute {A} (o : option A) attr : frames (attribute o attr).
Proof. destruct o; [apply frames_pure | apply frames_throw]. Qed.

Lemma frames_subscript {A} (d : gmap string A) k : frames (subscript d k).
Proof.
  unfold subscript. destruct (d !! k); [apply frames_pure | apply frames_throw].
Qed.

Lemma frames_bind {A B} (m : M A) (k : A -> M B) :
  frames m -> (forall a, frames (k a)) -> frames (bind m k).
Proof.
  intros Hm Hk w. unfold bind. destruct (Hm w) as [evs Hevs].
  destruct (m w) as [[e | a] w']; simpl in *.
  - by exists evs.
  - destruct (Hk a w') as [evs' Hevs']. exists (evs ++ evs').
    by rewrite Hevs', Hevs, addTrace_app.
Qed.

Lemma frames_noAttribute {A} attr : frames (@noAttribute A attr).
Proof. apply frames_throw. Qed.

Lemma frames_indexMetadata toolsMetadata toolsByName :
  frames (indexMetadata toolsMetadata toolsByName).
Proof. destruct toolsMetadata; [apply frames_pure | apply frames_throw]. Qed.

Lemma frames_keyValues keys : frames (keyValues keys).
Proof. destruct keys; [apply frames_pure | apply frames_throw]. Qed.

Create HintDb frame.
#[global] Hint Resolve frames_pure frames_throw frames_lift frames_emit
  frames_getModel frames_getEngine frames_readTools frames_attribute
  frames_subscript frames_noAttribute frames_indexMetadata
  frames_keyValues : frame.

Ltac frame_steps :=
  repeat first
    [ apply frames_bind; [| intros ?]
    | solve [auto with frame]
    | match goal with
      | |- frames (match ?x with _ => _ end) => destruct x
      | |- frames (let (_, _) := ?x in _) => destruct x
      end ].

(** *** Obliviousness *)

Lemma oblivious_pure {A} (a : A) : oblivious (pure a).
Proof. intros w1 w2. exists []. by rewrite !addTrace_nil. Qed.

Lemma oblivious_throw {A} e : oblivious (@throw A e).
Proof. intros w1 w2. exists []. by rewrite !addTrace_nil. Qed.

Lemma oblivious_lift {A} (r : Failure + A) : oblivious (lift r).
Proof. intros w1 w2. exists []. by rewrite !addTrace_nil. Qed.

Lemma oblivious_emit ev : oblivious (emit ev).
Proof. intros w1 w2. by exists [ev]. Qed.

Lemma oblivious_subscript {A} (d : gmap string A) k : oblivious (subscript d k).
Proof.
  unfold subscript.
  destruct (d !! k); [apply oblivious_pure | apply oblivious_throw].
Qed.

Lemma oblivious_bind {A B} (m : M A) (k : A -> M B) :
  oblivious m -> (forall a, oblivious (k a)) -> oblivious (bind m k).
Proof.
  intros Hm Hk w1 w2. unfold bind.
  destruct (Hm w1 w2) as (evs & Hr & H1 & H2).
  destruct (m w1) as [r1 w1'], (m w2) as [r2 w2']; simpl in *. subst r2.
  destruct r1 as [e | a].
  - by exists evs.
  - destruct (Hk a w1' w2') as (evs' & Hr' & H1' & H2').
    exists (evs ++ evs'). rewrite Hr', H1', H2', H1, H2.
    by rewrite !addTrace_app.
Qed.

Lemma oblivious_noAttribute {A} attr : oblivious (@noAttribute A attr).
Proof. apply oblivious_throw. Qed.

Lemma oblivious_keyValues keys : oblivious (keyValues keys).
Proof. destruct keys; [apply oblivious_pure | apply oblivious_throw]. Qed.

Create HintDb oblivious.
#[global] Hint Resolve oblivious_pure oblivious_throw oblivious_lift
  oblivious_emit oblivious_subscript oblivious_noAttribute
  oblivious_keyValues : oblivious.

Ltac oblivious_steps :=
  repeat first
    [ apply oblivious_bind; [| intros ?]
    | solve [auto with oblivious] ].

Section Facts.

Variable abi_encode : RawValue -> TypeTag -> Failure + bytes.
Variable abi_encode_all : list bytes -> Failure + bytes.
Variable json_parse : string -> Failure + list RawParam.

Local Abbreviation resolveParams := (resolveParams abi_encode).
Local Abbreviation resolvesTo := (resolvesTo abi_encode).

(** *** The loop *)

Lemma frames_resolveParams idx raw acc : frames (resolveParams idx raw acc).
Proof.
  revert acc. induction raw as [|p raw IH]; intros acc; simpl.
  - apply frames_pure.
  - frame_steps.
Qed.

Lemma oblivious_resolveParams idx raw acc :
  oblivious (resolveParams idx raw acc).
Proof.
  revert acc. induction raw as [|p raw IH]; intros acc; simpl.
  - apply oblivious_pure.
  - oblivious_steps.
Qed.

(** When every raw parameter resolves, the loop assigns the entries in
    raw order and makes one encoder call for each. *)
Lemma resolveParams_ok idx raw entries acc w :
  Forall2 (resolvesTo idx) raw entries ->
  resolveParams idx raw acc w =
    (inr (dict_of_entries acc entries), addTrace w (encodeEvents raw entries)).
Proof.
  intros H. revert acc w.
  induction H as [|p e raw entries (d & b & Hd & Hb & ->) _ IH];
    intros acc w; simpl.
  - by rewrite addTrace_nil.
  - mstep. rewrite Hd. simpl. rewrite Hb. rewrite IH.
    by rewrite addTrace_app.
Qed.

(** The first raw parameter whose name the index lacks ends the loop
    with a [KeyError] that carries the name. *)
Lemma resolveParams_unknown idx pre p post entries acc w :
  Forall2 (resolvesTo idx) pre entries ->
  idx !! raw_name p = None ->
  resolveParams idx (pre ++ p :: post) acc w =
    (inl (KeyError (raw_name p)), addTrace w (encodeEvents pre entries)).
Proof.
  intros H Hp. revert acc w.
  induction H as [|q e pre entries (d & b & Hd & Hb & ->) _ IH];
    intros acc w; simpl.
  - mstep. rewrite Hp. by rewrite addTrace_nil.
  - mstep. rewrite Hd. simpl. rewrite Hb. rewrite IH.
    by rewrite addTrace_app.
Qed.

(** A raw parameter whose name the index lacks leaves the loop without a
    dictionary, whatever the other parameters are. *)
Lemma resolveParams_fails idx raw p acc w :
  p ∈ raw -> idx !! raw_name p = None ->
  exists e, (resolveParams idx raw acc w).1 = inl e.
Proof.
  intros Hin Hp. revert acc w.
  induction raw as [|q raw IH]; intros acc w.
  - by apply elem_of_nil in Hin.
  - simpl. mstep. destruct (idx !! raw_name q) as [d|] eqn:Hq; simpl.
    + destruct (abi_encode (raw_value q) (pd_type d)) as [e | b]; simpl.
      * by exists e.
      * apply elem_of_cons in Hin as [-> | Hin]; [congruence |].
        by apply IH.
    + by eexists.
Qed.

End Facts.

#[global] Hint Resolve frames_resolveParams : frame.
#[global] Hint Resolve oblivious_resolveParams : oblivious.

(** ** Determinism of the resolver and the frame of an iteration *)

Section Hyperproperties.

Variable abi_encode : RawValue -> TypeTag -> Failure + bytes.
Variable abi_encode_all : list bytes -> Failure + bytes.
Variable json_parse : string -> Failure + list RawParam.

Local Abbreviation resolveAndEncode :=
  (resolveAndEncode abi_encode abi_encode_all json_parse).
Local Abbreviation runNextIteration :=
  (runNextIteration abi_encode abi_encode_all json_parse).

Lemma oblivious_resolveAndEncode t params :
  oblivious (resolveAndEncode t params).
Proof.
  unfold AgentExecutor.resolveAndEncode, AgentExecutor.parseParams,
    AgentExecutor.encodeParams.
  oblivious_steps.
Qed.

Lemma frames_resolveAndEncode t params : frames (resolveAndEncode t params).
Proof.
  unfold AgentExecutor.resolveAndEncode, AgentExecutor.parseParams,
    AgentExecutor.encodeParams.
  frame_steps.
Qed.

Lemma frames_runNextIteration modelId basePrompt rt prompt :
  frames (runNextIteration modelId basePrompt rt prompt).
Proof.
  unfold AgentExecutor.runNextIteration. frame_steps.
Qed.

(** C7.  With the encoder and the reader fixed, two runs of the resolver
    and encoder on the same tool and the same parameters of the parsed
    next step end the same way, with the same [IERCAgentTool.Input]
    (the same [params] and the same [abiEncodedParams]) or the same
    failure, and make the same calls, whatever the registries, the
    catalog and the earlier calls of the two worlds they start from. *)
Theorem C7_resolver_and_encoder_deterministic t params w1 w2 :
  (resolveAndEncode t params w1).1 = (resolveAndEncode t params w2).1 /\
  exists evs,
    (resolveAndEncode t params w1).2 = addTrace w1 evs /\
    (resolveAndEncode t params w2).2 = addTrace w2 evs.
Proof.
  destruct (oblivious_resolveAndEncode t params w1 w2) as (evs & Hr & H1 & H2).
  split; [exact Hr | by exists evs].
Qed.

(** C8.  After an iteration, whether it answered a result or failed, the
    model registry, the reasoning registry and the tool catalog are what
    they were before it: the iteration only adds to the record of the
    calls it made. *)
Theorem C8_iteration_mutates_nothing w modelId basePrompt rt prompt :
  let w' := (runNextIteration modelId basePrompt rt prompt w).2 in
  modelRegistry w' = modelRegistry w /\
  reasoningRegistry w' = reasoningRegistry w /\
  catalog w' = catalog w /\
  exists evs, trace w' = trace w ++ evs.
Proof.
  simpl.
  destruct (frames_runNextIteration modelId basePrompt rt prompt w)
    as [evs ->].
  repeat split; by exists evs.
Qed.

End Hyperproperties.

(** ** How often a collaborator is called *)

Lemma countEvents_app kind evs evs' :
  countEvents kind (evs ++ evs') = countEvents kind evs + countEvents kind evs'.
Proof. unfold countEvents. by rewrite List.filter_app, length_app. Qed.

Lemma addTrace_inj w evs evs' : addTrace w evs = addTrace w evs' -> evs = evs'.
Proof. intros [= H]. by apply app_inv_head in H. Qed.

Lemma never_quiet {A} kind (m : M A) :
  (forall w, (m w).2 = w) -> never kind m.
Proof. intros H w. exists []. by rewrite H, addTrace_nil. Qed.

Lemma never_pure {A} kind (a : A) : never kind (pure a).
Proof. by apply never_quiet. Qed.

Lemma never_throw {A} kind e : never kind (@throw A e).
Proof. by apply never_quiet. Qed.

Lemma never_lift {A} kind (r : Failure + A) : never kind (lift r).
Proof. by apply never_quiet. Qed.

Lemma never_getModel kind modelId : never kind (getModel modelId).
Proof. by apply never_quiet. Qed.

Lemma never_getEngine kind engine : never kind (getEngine engine).
Proof. by apply never_quiet. Qed.

Lemma never_readTools kind : never kind readTools.
Proof. by apply never_quiet. Qed.

Lemma never_attribute {A} kind (o : option A) attr :
  never kind (attribute o attr).
Proof. apply never_quiet. by destruct o. Qed.

Lemma never_subscript {A} kind (d : gmap string A) k :
  never kind (subscript d k).
Proof. apply never_quiet. intros w. unfold subscript. by destruct (d !! k). Qed.

Lemma never_emit kind ev : kind ev = false -> never kind (emit ev).
Proof.
  intros Hk w. exists [ev]. split; [done |].
  unfold countEvents. simpl. by rewrite Hk.
Qed.

Lemma atMostOnce_emit kind ev : atMostOnce kind (emit ev).
Proof.
  intros w. exists [ev]. split; [done |].
  unfold countEvents. simpl. destruct (kind ev); simpl; lia.
Qed.

Lemma never_atMostOnce {A} kind (m : M A) : never kind m -> atMostOnce kind m.
Proof. intros H w. destruct (H w) as (evs & Hw & Hc). exists evs. split; [done | lia]. Qed.

Lemma never_bind {A B} kind (m : M A) (k : A -> M B) :
  never kind m -> (forall a, never kind (k a)) -> never kind (bind m k).
Proof.
  intros Hm Hk w. unfold bind. destruct (Hm w) as (evs & Hevs & Hc).
  destruct (m w) as [[e | a] w']; simpl in *.
  - by exists evs.
  - destruct (Hk a w') as (evs' & Hevs' & Hc'). exists (evs ++ evs').
    rewrite Hevs', Hevs, addTrace_app, countEvents_app. split; [done | lia].
Qed.

Lemma atMostOnce_bind_l {A B} kind (m : M A) (k : A -> M B) :
  atMostOnce kind m -> (forall a, never kind (k a)) ->
  atMostOnce kind (bind m k).
Proof.
  intros Hm Hk w. unfold bind. destruct (Hm w) as (evs & Hevs & Hc).
  destruct (m w) as [[e | a] w']; simpl in *.
  - by exists evs.
  - destruct (Hk a w') as (evs' & Hevs' & Hc'). exists (evs ++ evs').
    rewrite Hevs', Hevs, addTrace_app, countEvents_app. split; [done | lia].
Qed.

Lemma atMostOnce_bind_r {A B} kind (m : M A) (k : A -> M B) :
  never kind m -> (forall a, atMostOnce kind (k a)) ->
  atMostOnce kind (bind m k).
Proof.
  intros Hm Hk w. unfold bind. destruct (Hm w) as (evs & Hevs & Hc).
  destruct (m w) as [[e | a] w']; simpl in *.
  - exists evs. split; [done | lia].
  - destruct (Hk a w') as (evs' & Hevs' & Hc'). exists (evs ++ evs').
    rewrite Hevs', Hevs, addTrace_app, countEvents_app. split; [done | lia].
Qed.

Lemma never_noAttribute {A} kind attr : never kind (@noAttribute A attr).
Proof. by apply never_quiet. Qed.

Lemma never_indexMetadata kind toolsMetadata toolsByName :
  never kind (indexMetadata toolsMetadata toolsByName).
Proof. apply never_quiet. by destruct toolsMetadata. Qed.

Lemma never_keyValues kind keys : never kind (keyValues keys).
Proof. apply never_quiet. by destruct keys. Qed.

Create HintDb calls.
#[global] Hint Resolve never_pure never_throw never_lift never_getModel
  never_getEngine never_readTools never_attribute never_subscript
  never_noAttribute never_indexMetadata never_keyValues : calls.
#[global] Hint Extern 1 (never _ (emit _)) =>
  apply never_emit; reflexivity : calls.

Section Calls.

Variable abi_encode : RawValue -> TypeTag -> Failure + bytes.
Variable abi_encode_all : list bytes -> Failure + bytes.
Variable json_parse : string -> Failure + list RawParam.

Local Abbreviation resolveParams := (resolveParams abi_encode).
Local Abbreviation runNextIteration :=
  (runNextIteration abi_encode abi_encode_all json_parse).

Lemma never_resolveParams kind idx raw acc :
  (forall v ty, kind (EvEncode v ty) = false) ->
  never kind (resolveParams idx raw acc).
Proof.
  intros Hk. revert acc. induction raw as [|p raw IH]; intros acc; simpl.
  - apply never_pure.
  - apply never_bind; [apply never_subscript | intros d].
    apply never_bind; [apply never_emit, Hk | intros _].
    apply never_bind; [apply never_lift | intros b]. apply IH.
Qed.

Ltac never_steps :=
  repeat first
    [ apply never_bind; [| intros ?]
    | solve [auto with calls]
    | solve [apply never_resolveParams; reflexivity]
    | match goal with
      | |- never _ (match ?x with _ => _ end) => destruct x
      | |- never _ (let (_, _) := ?x in _) => destruct x
      end ].

Ltac atMostOnce_steps :=
  repeat first
    [ solve [apply never_atMostOnce; never_steps]
    | apply atMostOnce_emit
    | apply atMostOnce_bind_r; [solve [never_steps] | intros ?]
    | apply atMostOnce_bind_l; [| intros ?; solve [never_steps]]
    | match goal with
      | |- atMostOnce _ (match ?x with _ => _ end) => destruct x
      | |- atMostOnce _ (let (_, _) := ?x in _) => destruct x
      end ].

Lemma atMostOnce_runNextIteration_prompt modelId basePrompt rt prompt :
  atMostOnce isBuildPrompt (runNextIteration modelId basePrompt rt prompt).
Proof.
  unfold AgentExecutor.runNextIteration, resolveAndEncode, parseParams,
    encodeParams.
  atMostOnce_steps.
Qed.

Lemma atMostOnce_runNextIteration_run modelId basePrompt rt prompt :
  atMostOnce isRun (runNextIteration modelId basePrompt rt prompt).
Proof.
  unfold AgentExecutor.runNextIteration, resolveAndEncode, parseParams,
    encodeParams.
  atMostOnce_steps.
Qed.

Lemma atMostOnce_runNextIteration_aggregate modelId basePrompt rt prompt :
  atMostOnce isEncodeAll (runNextIteration modelId basePrompt rt prompt).
Proof.
  unfold AgentExecutor.runNextIteration, resolveAndEncode, parseParams,
    encodeParams.
  atMostOnce_steps.
Qed.

(** X15.  On every input [runNextIteration] builds at most one prompt,
    calls the model at most once and performs at most one aggregate
    encoding: nothing is retried. *)
Theorem runNextIteration_calls_at_most_once w modelId basePrompt rt prompt :
  exists evs,
    (runNextIteration modelId basePrompt rt prompt w).2 = addTrace w evs /\
    countEvents isBuildPrompt evs <= 1 /\
    countEvents isRun evs <= 1 /\
    countEvents isEncodeAll evs <= 1.
Proof.
  destruct (atMostOnce_runNextIteration_prompt modelId basePrompt rt prompt w)
    as (evs & Hw & Hb).
  destruct (atMostOnce_runNextIteration_run modelId basePrompt rt prompt w)
    as (evs1 & Hw1 & Hr).
  destruct (atMostOnce_runNextIteration_aggregate modelId basePrompt rt prompt w)
    as (evs2 & Hw2 & Ha).
  rewrite Hw in Hw1, Hw2.
  apply addTrace_inj in Hw1 as <-. apply addTrace_inj in Hw2 as <-.
  by exists evs.
Qed.

End Calls.

(** ** What [runNextIteration] does *)

Section Iteration.

Variable abi_encode : RawValue -> TypeTag -> Failure + bytes.
Variable abi_encode_all : list bytes -> Failure + bytes.
Variable json_parse : string -> Failure + list RawParam.

Local Abbreviation runNextIteration :=
  (runNextIteration abi_encode abi_encode_all json_parse).

(** With a tool in the catalog, line 19 reads [tool.name] on the first
    entry of [toolsMetadata] and the iteration ends there. *)
Lemma runNextIteration_tools w modelId basePrompt rt prompt :
  catalog w <> [] ->
  runNextIteration modelId basePrompt rt prompt w =
    (inl (AttributeError "name"), w).
Proof.
  intros Hc. unfold AgentExecutor.runNextIteration. mstep.
  by destruct (catalog w).
Qed.

(** With no tools, the iteration goes on to the model and the parser; a
    finished step is answered, and a tool call ends at line 29, where
    [toolsByName.get] has answered [None]. *)
Lemma runNextIteration_bare w modelId basePrompt rt prompt llmPrompt out step :
  catalog w = [] ->
  parsesTo w modelId basePrompt rt prompt llmPrompt out step ->
  runNextIteration modelId basePrompt rt prompt w =
    match step with
    | Finished answer =>
        (inr (finalResult answer),
         addTrace w (askEvents w basePrompt rt prompt llmPrompt out))
    | ToolInvocation toolName params reasoning =>
        (inl (AttributeError "inputDescription"),
         addTrace w (askEvents w basePrompt rt prompt llmPrompt out
                       ++ [EvToolLookup toolName]))
    end.
Proof.
  intros Hc (handle & engine & Hm & He & -> & Hrun & Hparse).
  unfold AgentExecutor.runNextIteration, askEvents. mstep.
  rewrite Hc in *. simpl in *.
  rewrite Hm, He. simpl. rewrite Hrun. simpl. rewrite Hparse. simpl.
  rewrite !addTrace_app. simpl. destruct step; [done |].
  mstep. rewrite lookup_empty. simpl. by rewrite addTrace_app.
Qed.

(** A tool call is never answered: whatever the catalog, an iteration
    whose model output parses to a tool call ends with an
    [AttributeError], before the parameters are read. *)
Lemma runNextIteration_tool_call w modelId basePrompt rt prompt llmPrompt out
      toolName params reasoning :
  parsesTo w modelId basePrompt rt prompt llmPrompt out
           (ToolInvocation toolName params reasoning) ->
  exists attr evs,
    runNextIteration modelId basePrompt rt prompt w =
      (inl (AttributeError attr), addTrace w evs) /\
    countEvents resolvesOrEncodes evs <= 1 /\
    countEvents isEncode evs = 0 /\
    countEvents isEncodeAll evs = 0.
Proof.
  intros Hp. destruct (catalog w) as [| t tools] eqn:Hc.
  - rewrite (runNextIteration_bare _ _ _ _ _ _ _ _ Hc Hp).
    eexists _, _. split; [done |]. unfold askEvents, countEvents. simpl.
    repeat split; lia.
  - exists "name", []. rewrite addTrace_nil. split.
    + apply runNextIteration_tools. by rewrite Hc.
    + unfold countEvents. simpl. repeat split; lia.
Qed.

(** C2, as the code has it.  For a tool invocation in which a parameter
    that the schema of the invoked tool declares has no raw entry, the
    iteration fails, but not with [MissingParameter]: the code has no
    check of the required parameters.  No aggregate encoding is performed
    for the call. *)
Theorem C2_fails_without_MissingParameter
        w modelId basePrompt rt prompt llmPrompt out
        toolName params reasoning (t : Tool) (raw : list RawParam)
        (d : ParamDescription) :
  parsesTo w modelId basePrompt rt prompt llmPrompt out
           (ToolInvocation toolName params reasoning) ->
  t ∈ catalog w ->
  tool_name t = toolName ->
  json_parse params = inr raw ->
  d ∈ paramDescriptions (tool_inputDescription t) ->
  pd_name d ∉ map raw_name raw ->
  exists e evs,
    runNextIteration modelId basePrompt rt prompt w = (inl e, addTrace w evs) /\
    (forall name, e <> MissingParameter name) /\
    countEvents isEncodeAll evs = 0.
Proof.
  intros Hp _ _ _ _ _.
  destruct (runNextIteration_tool_call _ _ _ _ _ _ _ _ _ _ Hp)
    as (attr & evs & Hrun & _ & _ & Hall).
  by exists (AttributeError attr), evs.
Qed.

(** C3, as the code has it.  For a tool invocation whose raw list has a
    name that the schema of the invoked tool lacks, the iteration fails,
    but not with [UnknownParameter]: the code has no such error.  No
    result, whole or partial, is returned, and no aggregate encoding is
    performed. *)
Theorem C3_fails_without_UnknownParameter
        w modelId basePrompt rt prompt llmPrompt out
        toolName params reasoning (t : Tool) (raw : list RawParam)
        (p : RawParam) :
  parsesTo w modelId basePrompt rt prompt llmPrompt out
           (ToolInvocation toolName params reasoning) ->
  t ∈ catalog w ->
  tool_name t = toolName ->
  json_parse params = inr raw ->
  p ∈ raw ->
  raw_name p ∉ map pd_name (paramDescriptions (tool_inputDescription t)) ->
  exists e evs,
    runNextIteration modelId basePrompt rt prompt w = (inl e, addTrace w evs) /\
    (forall name, e <> UnknownParameter name) /\
    (forall r, (runNextIteration modelId basePrompt rt prompt w).1 <> inr r) /\
    countEvents isEncodeAll evs = 0.
Proof.
  intros Hp _ _ _ _ _.
  destruct (runNextIteration_tool_call _ _ _ _ _ _ _ _ _ _ Hp)
    as (attr & evs & Hrun & _ & _ & Hall).
  exists (AttributeError attr), evs. rewrite Hrun. by repeat split.
Qed.

(** C4, as the code has it.  For a model identifier that the registry
    lacks, [modelRegistry.get] answers [None] with no check: the iteration
    fails, never with [UnknownModel], and the model handle is not run.
    When the catalog is empty the prompt is built first if an engine is
    registered, and the failure is the [AttributeError] of [llm.run];
    with no engine it is that of [reasoningEngine.buildPrompt]. *)
Theorem C4_unknown_model_is_not_checked w modelId basePrompt rt prompt :
  modelRegistry w !! modelId = None ->
  (exists e evs,
      runNextIteration modelId basePrompt rt prompt w
        = (inl e, addTrace w evs) /\
      e <> UnknownModel /\
      countEvents isRun evs = 0) /\
  (catalog w = [] ->
   runNextIteration modelId basePrompt rt prompt w =
     match reasoningRegistry w !! RE_ACT with
     | Some engine =>
         (inl (AttributeError "run"),
          addTrace w [EvBuildPrompt basePrompt [] rt prompt])
     | None => (inl (AttributeError "buildPrompt"), w)
     end).
Proof.
  intros Hm.
  assert (Hbare : catalog w = [] ->
    runNextIteration modelId basePrompt rt prompt w =
      match reasoningRegistry w !! RE_ACT with
      | Some engine =>
          (inl (AttributeError "run"),
           addTrace w [EvBuildPrompt basePrompt [] rt prompt])
      | None => (inl (AttributeError "buildPrompt"), w)
      end).
  { intros Hc. unfold AgentExecutor.runNextIteration. mstep.
    rewrite Hc, Hm. simpl. by destruct (reasoningRegistry w !! RE_ACT). }
  split; [| exact Hbare].
  destruct (catalog w) as [| t tools] eqn:Hc.
  - rewrite (Hbare eq_refl).
    destruct (reasoningRegistry w !! RE_ACT).
    + by eexists _, _.
    + exists (AttributeError "buildPrompt"), [].
      by rewrite addTrace_nil.
  - exists (AttributeError "name"), []. rewrite addTrace_nil.
    split; [| done]. apply runNextIteration_tools. by rewrite Hc.
Qed.

(** C5, as the code has it.  When the parsed tool name matches no tool of
    the catalog, the iteration fails with an [AttributeError], an error
    outside the taxonomy, never with [UnknownTool], and no parameter is
    encoded.  When the catalog is empty, [toolsByName.get] answers
    [None] and the failure is that of [tool.inputDescription] on line 29,
    after the lookup. *)
Theorem C5_unknown_tool_is_an_AttributeError
        w modelId basePrompt rt prompt llmPrompt out
        toolName params reasoning :
  parsesTo w modelId basePrompt rt prompt llmPrompt out
           (ToolInvocation toolName params reasoning) ->
  toolName ∉ map tool_name (catalog w) ->
  (exists attr evs,
      runNextIteration modelId basePrompt rt prompt w
        = (inl (AttributeError attr), addTrace w evs) /\
      structured (AttributeError attr) = false /\
      AttributeError attr <> UnknownTool /\
      countEvents isEncode evs = 0 /\ countEvents isEncodeAll evs = 0) /\
  (catalog w = [] ->
   runNextIteration modelId basePrompt rt prompt w =
     (inl (AttributeError "inputDescription"),
      addTrace w (askEvents w basePrompt rt prompt llmPrompt out
                    ++ [EvToolLookup toolName]))).
Proof.
  intros Hp _. split.
  - destruct (runNextIteration_tool_call _ _ _ _ _ _ _ _ _ _ Hp)
      as (attr & evs & Hrun & _ & Henc & Hall).
    by exists attr, evs.
  - intros Hc. by rewrite (runNextIteration_bare _ _ _ _ _ _ _ _ Hc Hp).
Qed.

End Iteration.

(** * Further properties of the sketches *)

(** ** [runNextIteration] with and without tools *)

Section Bare.

Variable abi_encode : RawValue -> TypeTag -> Failure + bytes.
Variable abi_encode_all : list bytes -> Failure + bytes.
Variable json_parse : string -> Failure + list RawParam.

Local Abbreviation runNextIteration :=
  (runNextIteration abi_encode abi_encode_all json_parse).

(** X24.  With at least one tool in the catalog, [runNextIteration] ends
    at line 19 with the [AttributeError] of [tool.name], read on an entry
    of [toolsMetadata]: no prompt is built and no collaborator is called,
    whatever the model identifier, the registries and the task are. *)
Theorem runNextIteration_tools_raise w modelId basePrompt rt prompt :
  catalog w <> [] ->
  runNextIteration modelId basePrompt rt prompt w =
    (inl (AttributeError "name"), w).
Proof. apply runNextIteration_tools. Qed.

(** X1.  With no tools and no reasoning engine registered,
    [runNextIteration] ends with the [AttributeError] of
    [reasoningEngine.buildPrompt] before any call is made, whether the
    model identifier is registered or not. *)
Theorem runNextIteration_engine_missing w modelId basePrompt rt prompt :
  catalog w = [] ->
  reasoningRegistry w !! RE_ACT = None ->
  runNextIteration modelId basePrompt rt prompt w =
    (inl (AttributeError "buildPrompt"), w).
Proof.
  intros Hc He. unfold AgentExecutor.runNextIteration. mstep.
  by rewrite Hc, He.
Qed.

(** X2.  With no tools, a failure of the model handle ends
    [runNextIteration] with that very failure: the model was called once,
    and the parser is not called. *)
Theorem runNextIteration_run_fails
        w modelId basePrompt rt prompt handle engine e :
  catalog w = [] ->
  modelRegistry w !! modelId = Some handle ->
  reasoningRegistry w !! RE_ACT = Some engine ->
  let llmPrompt := buildPrompt engine basePrompt [] rt prompt in
  run handle llmPrompt = inl e ->
  runNextIteration modelId basePrompt rt prompt w =
    (inl e,
     addTrace w [EvBuildPrompt basePrompt [] rt prompt; EvRun llmPrompt]).
Proof.
  intros Hc Hm He llmPrompt Hrun.
  unfold AgentExecutor.runNextIteration. mstep. rewrite Hc, Hm, He. simpl.
  fold llmPrompt. rewrite Hrun. simpl. by rewrite addTrace_app.
Qed.

(** X3.  With no tools, a failure of the parser ends [runNextIteration]
    with that very failure, before any tool is looked up. *)
Theorem runNextIteration_parse_fails
        w modelId basePrompt rt prompt handle engine out e :
  catalog w = [] ->
  modelRegistry w !! modelId = Some handle ->
  reasoningRegistry w !! RE_ACT = Some engine ->
  let llmPrompt := buildPrompt engine basePrompt [] rt prompt in
  run handle llmPrompt = inr out ->
  parse engine out = inl e ->
  runNextIteration modelId basePrompt rt prompt w =
    (inl e,
     addTrace w [EvBuildPrompt basePrompt [] rt prompt; EvRun llmPrompt;
                 EvParse out]).
Proof.
  intros Hc Hm He llmPrompt Hrun Hparse.
  unfold AgentExecutor.runNextIteration. mstep. rewrite Hc, Hm, He. simpl.
  fold llmPrompt. rewrite Hrun. simpl. rewrite Hparse. simpl.
  by rewrite !addTrace_app.
Qed.

(** X25.  With no tools, when the model output parses to a finished step,
    [runNextIteration] answers the final result with its answer, after the
    prompt builder, the model and the parser and nothing else. *)
Theorem runNextIteration_bare_finished
        w modelId basePrompt rt prompt llmPrompt out answer :
  catalog w = [] ->
  parsesTo w modelId basePrompt rt prompt llmPrompt out (Finished answer) ->
  runNextIteration modelId basePrompt rt prompt w =
    (inr (finalResult answer),
     addTrace w [EvBuildPrompt basePrompt [] rt prompt; EvRun llmPrompt;
                 EvParse out]).
Proof.
  intros Hc Hp. rewrite (runNextIteration_bare _ _ _ _ _ _ _ _ _ _ _ Hc Hp).
  unfold askEvents. by rewrite Hc.
Qed.

(** What a run of [runNextIteration] went through, by its outcome. *)
Lemma runNextIteration_cases w modelId basePrompt rt prompt :
  let r := runNextIteration modelId basePrompt rt prompt w in
  (catalog w <> [] /\ r.1 = inl (AttributeError "name")) \/
  (catalog w = [] /\
   ((reasoningRegistry w !! RE_ACT = None /\
     r.1 = inl (AttributeError "buildPrompt")) \/
    (modelRegistry w !! modelId = None /\ r.1 = inl (AttributeError "run")) \/
    (exists handle engine e,
        modelRegistry w !! modelId = Some handle /\
        reasoningRegistry w !! RE_ACT = Some engine /\
        run handle (buildPrompt engine basePrompt [] rt prompt) = inl e /\
        r.1 = inl e) \/
    (exists handle engine out e,
        modelRegistry w !! modelId = Some handle /\
        reasoningRegistry w !! RE_ACT = Some engine /\
        run handle (buildPrompt engine basePrompt [] rt prompt) = inr out /\
        parse engine out = inl e /\
        r.1 = inl e) \/
    (exists llmPrompt out answer,
        parsesTo w modelId basePrompt rt prompt llmPrompt out
                 (Finished answer) /\
        r.1 = inr (finalResult answer)) \/
    (exists llmPrompt out toolName params reasoning,
        parsesTo w modelId basePrompt rt prompt llmPrompt out
                 (ToolInvocation toolName params reasoning) /\
        r.1 = inl (AttributeError "inputDescription")))).
Proof.
  simpl. destruct (catalog w) as [| t tools] eqn:Hc.
  2: { left. split; [done |].
       rewrite runNextIteration_tools; [done | by rewrite Hc]. }
  right. split; [done |].
  destruct (reasoningRegistry w !! RE_ACT) as [engine |] eqn:He.
  2: { left. split; [done |].
       unfold AgentExecutor.runNextIteration. mstep. by rewrite Hc, He. }
  destruct (modelRegistry w !! modelId) as [handle |] eqn:Hm.
  2: { right. left. split; [done |].
       unfold AgentExecutor.runNextIteration. mstep. by rewrite Hc, He, Hm. }
  destruct (run handle (buildPrompt engine basePrompt [] rt prompt))
    as [e | out] eqn:Hrun.
  { do 2 right. left. exists handle, engine, e. repeat split; try done.
    unfold AgentExecutor.runNextIteration. mstep. rewrite Hc, He, Hm. simpl.
    by rewrite Hrun. }
  destruct (parse engine out) as [e | step] eqn:Hparse.
  { do 3 right. left. exists handle, engine, out, e. repeat split; try done.
    unfold AgentExecutor.runNextIteration. mstep. rewrite Hc, He, Hm. simpl.
    rewrite Hrun. simpl. by rewrite Hparse. }
  assert (Hp : parsesTo w modelId basePrompt rt prompt
                 (buildPrompt engine basePrompt [] rt prompt) out step).
  { exists handle, engine. by rewrite Hc. }
  rewrite (runNextIteration_bare _ _ _ _ _ _ _ _ _ _ _ Hc Hp).
  destruct step as [answer | toolName params reasoning].
  - do 4 right. left. by eexists _, _, _.
  - do 5 right. by eexists _, _, _, _, _.
Qed.

(** X26.  A result of [runNextIteration] is always a final answer, and it
    is answered for an empty catalog only: no input makes the function
    return a tool call. *)
Theorem runNextIteration_only_final_answers w modelId basePrompt rt prompt r :
  (runNextIteration modelId basePrompt rt prompt w).1 = inr r ->
  catalog w = [] /\
  exists llmPrompt out answer,
    parsesTo w modelId basePrompt rt prompt llmPrompt out (Finished answer) /\
    r = finalResult answer.
Proof.
  intros Hr.
  destruct (runNextIteration_cases w modelId basePrompt rt prompt)
    as [[_ H] | [Hc H]]; simpl in H; [congruence |].
  split; [done |].
  destruct H as [[_ H] | [[_ H] | [(? & ? & ? & _ & _ & _ & H) |
    [(? & ? & ? & ? & _ & _ & _ & _ & H) |
     [(llmPrompt & out & answer & Hp & H) | (? & ? & ? & ? & ? & _ & H)]]]]];
    try congruence.
  exists llmPrompt, out, answer. split; [done | congruence].
Qed.

(** X17.  A failure of [runNextIteration] has one of six causes: a tool
    in the catalog ([AttributeError] of [name], line 19); or else, with no
    tools, no engine registered (that of [buildPrompt]); the model not
    registered (that of [run]); a model output that parses to a tool call
    (that of [inputDescription], line 29); or the failure that the
    registered model handle answered to the prompt, or that the registered
    engine's parser answered to the model output.  The code raises nothing
    else. *)
Theorem runNextIteration_failure_causes w modelId basePrompt rt prompt e :
  (runNextIteration modelId basePrompt rt prompt w).1 = inl e ->
  (e = AttributeError "name" /\ catalog w <> []) \/
  (catalog w = [] /\
   ((e = AttributeError "buildPrompt" /\
     reasoningRegistry w !! RE_ACT = None) \/
    (e = AttributeError "run" /\ modelRegistry w !! modelId = None /\
     reasoningRegistry w !! RE_ACT <> None) \/
    (e = AttributeError "inputDescription" /\
     exists llmPrompt out toolName params reasoning,
       parsesTo w modelId basePrompt rt prompt llmPrompt out
                (ToolInvocation toolName params reasoning)) \/
    (exists handle engine,
        modelRegistry w !! modelId = Some handle /\
        reasoningRegistry w !! RE_ACT = Some engine /\
        run handle (buildPrompt engine basePrompt [] rt prompt) = inl e) \/
    (exists handle engine out,
        modelRegistry w !! modelId = Some handle /\
        reasoningRegistry w !! RE_ACT = Some engine /\
        run handle (buildPrompt engine basePrompt [] rt prompt) = inr out /\
        parse engine out = inl e))).
Proof.
  intros Hr.
  destruct (runNextIteration_cases w modelId basePrompt rt prompt)
    as [[Hc H] | [Hc H]]; simpl in H.
  { left. split; [congruence | done]. }
  right. split; [done |].
  destruct H as [[He H] | [[Hm H] | [(handle & engine & e' & Hm & He & Hrun & H) |
    [(handle & engine & out & e' & Hm & He & Hrun & Hparse & H) |
     [(? & ? & ? & _ & H) | (llmPrompt & out & tn & ps & rs & Hp & H)]]]]].
  - left. split; [congruence | done].
  - destruct (reasoningRegistry w !! RE_ACT) as [engine |] eqn:He.
    + right. left. repeat split; [congruence | done | done].
    + left. split; [| done].
      assert (Hb : (runNextIteration modelId basePrompt rt prompt w).1
                   = inl (AttributeError "buildPrompt")).
      { unfold AgentExecutor.runNextIteration. mstep. by rewrite Hc, He. }
      congruence.
  - do 3 right. left. exists handle, engine. repeat split; try done.
    congruence.
  - do 4 right. exists handle, engine, out. repeat split; try done.
    congruence.
  - congruence.
  - do 2 right. left. split; [congruence |]. by eexists _, _, _, _, _.
Qed.

(** X27.  On every input [runNextIteration] reads no raw parameters and
    encodes nothing: the reader and the two operations of the encoder are
    never called. *)
Theorem runNextIteration_never_encodes w modelId basePrompt rt prompt :
  exists evs,
    (runNextIteration modelId basePrompt rt prompt w).2 = addTrace w evs /\
    countEvents isJsonParse evs = 0 /\
    countEvents isEncode evs = 0 /\
    countEvents isEncodeAll evs = 0.
Proof.
  destruct (runNextIteration_cases w modelId basePrompt rt prompt)
    as [[Hc _] | [Hc _]].
  { exists []. rewrite addTrace_nil.
    by rewrite (runNextIteration_tools _ _ _ _ _ _ _ _ Hc). }
  unfold AgentExecutor.runNextIteration. mstep. rewrite Hc. simpl.
  destruct (reasoningRegistry w !! RE_ACT) as [engine |]; simpl;
    [| exists []; by rewrite addTrace_nil].
  destruct (modelRegistry w !! modelId) as [handle |]; simpl;
    [| by eexists].
  destruct (run handle _) as [e | out]; simpl;
    [rewrite addTrace_app; by eexists |].
  destruct (parse engine out) as [e | [answer | toolName params reasoning]];
    simpl; rewrite ?lookup_empty; simpl; rewrite ?addTrace_app; by eexists.
Qed.

End Bare.

(** ** The [executeAgent] of [agent_execitor_precompile.py] *)

Lemma dict_set_not_nil k v d : dict_set k v d <> [].
Proof. destruct d as [|[k' v'] d]; simpl; [done |]. by destruct (String.eqb k k'). Qed.

Lemma dict_of_entries_not_nil acc entries :
  acc <> [] \/ entries <> [] -> dict_of_entries acc entries <> [].
Proof.
  revert acc. induction entries as [|[k v] entries IH]; intros acc H.
  - by destruct H.
  - unfold dict_of_entries in *. simpl. apply IH. left.
    apply dict_set_not_nil.
Qed.

(** In an index, the last element of a key is the one that is found. *)
Lemma indexBy_last {A} (key : A -> string) (pre post : list A) x :
  key x ∉ map key post ->
  indexBy key (pre ++ x :: post) !! key x = Some x.
Proof.
  induction post as [|y post IH] using rev_ind; intros Hx.
  - rewrite indexBy_snoc. apply lookup_insert_eq.
  - rewrite map_app in Hx. simpl in Hx.
    apply not_elem_of_app in Hx as [Hpost Hy].
    rewrite app_comm_cons, app_assoc, indexBy_snoc, lookup_insert_ne.
    + by apply IH.
    + intros Heq. apply Hy. rewrite Heq. left.
Qed.

Section ExecuteAgent.

Variable abi_encode : RawValue -> TypeTag -> Failure + bytes.
Variable abi_encode_all : list bytes -> Failure + bytes.
Variable json_parse : string -> Failure + list RawParam.

Local Abbreviation resolveParams := (resolveParams abi_encode).
Local Abbreviation parseParams := (parseParams abi_encode json_parse).
Local Abbreviation encodeParams := (encodeParams abi_encode_all).
Local Abbreviation resolvesTo := (resolvesTo abi_encode).
Local Abbreviation executeAgent :=
  (Execitor.executeAgent abi_encode abi_encode_all json_parse).

(** The loop stops at the first raw parameter that the encoder refuses. *)
Lemma resolveParams_refused idx pre p post entries d e acc w :
  Forall2 (resolvesTo idx) pre entries ->
  idx !! raw_name p = Some d ->
  abi_encode (raw_value p) (pd_type d) = inl e ->
  resolveParams idx (pre ++ p :: post) acc w =
    (inl e, addTrace w (encodeEvents pre entries
                          ++ [EvEncode (raw_value p) (pd_type d)])).
Proof.
  intros H Hd He. revert acc w.
  induction H as [|q en pre entries (dq & b & Hdq & Hb & ->) _ IH];
    intros acc w; simpl.
  - mstep. rewrite Hd. simpl. by rewrite He.
  - mstep. rewrite Hdq. simpl. rewrite Hb. rewrite IH.
    by rewrite addTrace_app.
Qed.

Lemma resolveParams_inv idx raw acc w parsedParams :
  (resolveParams idx raw acc w).1 = inr parsedParams ->
  exists entries,
    Forall2 (resolvesTo idx) raw entries /\
    parsedParams = dict_of_entries acc entries.
Proof.
  revert acc w. induction raw as [|p raw IH]; intros acc w; simpl.
  - intros [= <-]. exists []. split; [constructor | done].
  - mstep. destruct (idx !! raw_name p) as [d|] eqn:Hd; simpl; [|done].
    destruct (abi_encode (raw_value p) (pd_type d)) as [e|b] eqn:Hb; simpl;
      [done |].
    intros H. apply IH in H as (entries & Hall & ->).
    exists ((raw_name p, {| type := pd_type d; value := b |}) :: entries).
    split; [| done]. constructor; [by exists d, b | done].
Qed.

Lemma resolveParams_failure idx raw acc w e :
  (resolveParams idx raw acc w).1 = inl e ->
  (exists p, p ∈ raw /\ idx !! raw_name p = None /\ e = KeyError (raw_name p))
  \/ (exists v ty, abi_encode v ty = inl e).
Proof.
  revert acc w. induction raw as [|p raw IH]; intros acc w; simpl; [done |].
  mstep. destruct (idx !! raw_name p) as [d|] eqn:Hd; simpl.
  - destruct (abi_encode (raw_value p) (pd_type d)) as [e'|b] eqn:Hb; simpl.
    + intros [= <-]. right. by eexists _, _.
    + intros H. apply IH in H as [(q & Hq & Hnone & ->) | H].
      * left. exists q. split; [by right | done].
      * by right.
  - intros [= <-]. left. exists p. split; [left | done].
Qed.

Lemma askModel_asked w modelId agentDescription rt prompt llmPrompt out step :
  asksTo w modelId agentDescription rt prompt llmPrompt out step ->
  askModel modelId agentDescription rt prompt w =
    (inr (indexBy tool_name (catalog w), step),
     addTrace w (executeEvents w agentDescription rt prompt llmPrompt out)).
Proof.
  intros (handle & engine & Hm & He & -> & Hrun & Hparse).
  unfold askModel. mstep. rewrite Hm, He. simpl. rewrite Hrun. simpl.
  rewrite Hparse. simpl. by rewrite !addTrace_app.
Qed.

Lemma parseParams_resolved t params raw entries w :
  json_parse params = inr raw ->
  Forall2 (resolvesTo (toolInputByName t)) raw entries ->
  parseParams t params w =
    (inr (dict_of_entries [] entries),
     addTrace w (EvJsonParse params :: encodeEvents raw entries)).
Proof.
  intros Hj Hall. unfold AgentExecutor.parseParams.
  unfold bind at 1 2. unfold emit at 1. unfold lift at 1. simpl. rewrite Hj.
  fold (toolInputByName t).
  rewrite (resolveParams_ok abi_encode _ _ _ _ _ Hall).
  by rewrite addTrace_app.
Qed.

Lemma parseParams_unknown t params pre p post entries w :
  json_parse params = inr (pre ++ p :: post) ->
  Forall2 (resolvesTo (toolInputByName t)) pre entries ->
  toolInputByName t !! raw_name p = None ->
  parseParams t params w =
    (inl (KeyError (raw_name p)),
     addTrace w (EvJsonParse params :: encodeEvents pre entries)).
Proof.
  intros Hj Hall Hp. unfold AgentExecutor.parseParams.
  unfold bind at 1 2. unfold emit at 1. unfold lift at 1. simpl. rewrite Hj.
  fold (toolInputByName t).
  rewrite (resolveParams_unknown abi_encode _ _ _ _ _ _ _ Hall Hp).
  by rewrite addTrace_app.
Qed.

Lemma parseParams_refused t params pre p post entries d e w :
  json_parse params = inr (pre ++ p :: post) ->
  Forall2 (resolvesTo (toolInputByName t)) pre entries ->
  toolInputByName t !! raw_name p = Some d ->
  abi_encode (raw_value p) (pd_type d) = inl e ->
  parseParams t params w =
    (inl e,
     addTrace w (EvJsonParse params :: encodeEvents pre entries
                   ++ [EvEncode (raw_value p) (pd_type d)])).
Proof.
  intros Hj Hall Hd He. unfold AgentExecutor.parseParams.
  unfold bind at 1 2. unfold emit at 1. unfold lift at 1. simpl. rewrite Hj.
  fold (toolInputByName t).
  rewrite (resolveParams_refused _ _ _ _ _ _ _ _ _ Hall Hd He).
  by rewrite addTrace_app.
Qed.

Lemma parseParams_inv t params w parsedParams :
  (parseParams t params w).1 = inr parsedParams ->
  exists raw entries,
    json_parse params = inr raw /\
    Forall2 (resolvesTo (toolInputByName t)) raw entries /\
    parsedParams = dict_of_entries [] entries.
Proof.
  unfold AgentExecutor.parseParams.
  unfold bind at 1 2. unfold emit at 1. unfold lift at 1. simpl.
  destruct (json_parse params) as [e | raw] eqn:Hj; [done |].
  fold (toolInputByName t). intros H.
  apply resolveParams_inv in H as (entries & Hall & ->).
  by exists raw, entries.
Qed.

(** Line 34 with no parsed parameters, and with some. *)
Lemma encodeParams_none w :
  encodeParams [] w =
    (abi_encode_all [], addTrace w [EvEncodeAll []]).
Proof. reflexivity. Qed.

Lemma encodeParams_some parsedParams w :
  parsedParams <> [] ->
  encodeParams parsedParams w = (inl (AttributeError "value"), w).
Proof. by destruct parsedParams as [|[k v] d]. Qed.

(** The function after a tool call was parsed and the tool found. *)
Lemma executeAgent_tool w modelId agentName agentDescription rt prompt
      llmPrompt out toolName params reasoning t :
  asksTo w modelId agentDescription rt prompt llmPrompt out
         (ToolInvocation toolName params reasoning) ->
  indexBy tool_name (catalog w) !! toolName = Some t ->
  executeAgent modelId agentName agentDescription rt prompt w =
    (parsedParams <- parseParams t params ;;
     abiEncodedParams <- encodeParams parsedParams ;;
     pure (toolCallResult t
             {| IERCAgentTool.params := parsedParams;
                abiEncodedParams := abiEncodedParams |} reasoning))
      (addTrace w (executeEvents w agentDescription rt prompt llmPrompt out
                     ++ [EvToolLookup toolName])).
Proof.
  intros Hp Ht. unfold Execitor.executeAgent. unfold bind at 1.
  rewrite (askModel_asked _ _ _ _ _ _ _ _ Hp).
  unfold bind at 1. unfold emit at 1. unfold bind at 1.
  rewrite Ht. simpl. by rewrite addTrace_app.
Qed.

(** X18.  When the model output parses to a finished step, the
    [executeAgent] of [agent_execitor_precompile.py] answers the final
    result with its answer, after the prompt builder, the model and the
    parser and nothing else, whatever tools the catalog holds. *)
Theorem executeAgent_finished
        w modelId agentName agentDescription rt prompt llmPrompt out answer :
  asksTo w modelId agentDescription rt prompt llmPrompt out (Finished answer) ->
  executeAgent modelId agentName agentDescription rt prompt w =
    (inr (finalResult answer),
     addTrace w (executeEvents w agentDescription rt prompt llmPrompt out)).
Proof.
  intros Hp. unfold Execitor.executeAgent, bind.
  by rewrite (askModel_asked _ _ _ _ _ _ _ _ Hp).
Qed.

(** X19.  For a model identifier that the registry lacks, the
    [executeAgent] of [agent_execitor_precompile.py] goes on to build the
    prompt when an engine is registered and ends with the
    [AttributeError] of [llm.run]; with no engine it ends with that of
    [buildPrompt].  The model is not run. *)
Theorem executeAgent_unknown_model
        w modelId agentName agentDescription rt prompt :
  modelRegistry w !! modelId = None ->
  executeAgent modelId agentName agentDescription rt prompt w =
    match reasoningRegistry w !! RE_ACT with
    | Some engine =>
        (inl (AttributeError "run"),
         addTrace w [EvBuildPrompt agentDescription (catalog w) rt prompt])
    | None => (inl (AttributeError "buildPrompt"), w)
    end.
Proof.
  intros Hm. unfold Execitor.executeAgent, askModel. mstep.
  rewrite Hm. by destruct (reasoningRegistry w !! RE_ACT).
Qed.

(** X20.  When the parsed tool name matches no tool of the catalog, the
    [executeAgent] of [agent_execitor_precompile.py] ends with the
    [AttributeError] of [tool.inputDescription], before any parameter is
    read or encoded. *)
Theorem executeAgent_unknown_tool
        w modelId agentName agentDescription rt prompt llmPrompt out
        toolName params reasoning :
  asksTo w modelId agentDescription rt prompt llmPrompt out
         (ToolInvocation toolName params reasoning) ->
  toolName ∉ map tool_name (catalog w) ->
  executeAgent modelId agentName agentDescription rt prompt w =
    (inl (AttributeError "inputDescription"),
     addTrace w (executeEvents w agentDescription rt prompt llmPrompt out
                   ++ [EvToolLookup toolName])).
Proof.
  intros Hp Hmiss. apply indexBy_None in Hmiss.
  unfold Execitor.executeAgent, bind.
  rewrite (askModel_asked _ _ _ _ _ _ _ _ Hp). simpl.
  rewrite Hmiss. simpl. by rewrite addTrace_app.
Qed.

(** X4.  When the reader refuses the parameters of the parsed step, the
    [executeAgent] of [agent_execitor_precompile.py] ends with the
    reader's failure, and the encoder is not called. *)
Theorem executeAgent_json_fails
        w modelId agentName agentDescription rt prompt llmPrompt out
        toolName params reasoning t e :
  asksTo w modelId agentDescription rt prompt llmPrompt out
         (ToolInvocation toolName params reasoning) ->
  indexBy tool_name (catalog w) !! toolName = Some t ->
  json_parse params = inl e ->
  executeAgent modelId agentName agentDescription rt prompt w =
    (inl e,
     addTrace w (executeEvents w agentDescription rt prompt llmPrompt out
                   ++ [EvToolLookup toolName; EvJsonParse params])).
Proof.
  intros Hp Ht Hj. rewrite (executeAgent_tool _ _ _ _ _ _ _ _ _ _ _ _ Hp Ht).
  unfold AgentExecutor.parseParams. mstep. rewrite Hj. simpl.
  by rewrite addTrace_app.
Qed.

(** X21.  When a raw parameter has a name that the schema of the tool
    lacks, and the raw parameters before it resolve, the [executeAgent] of
    [agent_execitor_precompile.py] ends with the [KeyError] of that name
    and answers no result. *)
Theorem executeAgent_unknown_parameter
        w modelId agentName agentDescription rt prompt llmPrompt out
        toolName params reasoning t pre p post entries :
  asksTo w modelId agentDescription rt prompt llmPrompt out
         (ToolInvocation toolName params reasoning) ->
  indexBy tool_name (catalog w) !! toolName = Some t ->
  json_parse params = inr (pre ++ p :: post) ->
  Forall2 (resolvesTo (toolInputByName t)) pre entries ->
  raw_name p ∉ map pd_name (paramDescriptions (tool_inputDescription t)) ->
  executeAgent modelId agentName agentDescription rt prompt w =
    (inl (KeyError (raw_name p)),
     addTrace w (executeEvents w agentDescription rt prompt llmPrompt out
                   ++ EvToolLookup toolName :: EvJsonParse params
                   :: encodeEvents pre entries)).
Proof.
  intros Hp Ht Hj Hall Hmiss. apply indexBy_None in Hmiss.
  rewrite (executeAgent_tool _ _ _ _ _ _ _ _ _ _ _ _ Hp Ht).
  unfold bind at 1.
  rewrite (parseParams_unknown _ _ _ _ _ _ _ Hj Hall Hmiss).
  by rewrite !addTrace_app.
Qed.

(** X5.  When the encoder refuses the value of a raw parameter, the
    [executeAgent] of [agent_execitor_precompile.py] ends with the
    encoder's failure: the raw parameters after it are neither looked up
    nor encoded, and there is no aggregate encoding. *)
Theorem executeAgent_encode_fails
        w modelId agentName agentDescription rt prompt llmPrompt out
        toolName params reasoning t pre p post entries d e :
  asksTo w modelId agentDescription rt prompt llmPrompt out
         (ToolInvocation toolName params reasoning) ->
  indexBy tool_name (catalog w) !! toolName = Some t ->
  json_parse params = inr (pre ++ p :: post) ->
  Forall2 (resolvesTo (toolInputByName t)) pre entries ->
  toolInputByName t !! raw_name p = Some d ->
  abi_encode (raw_value p) (pd_type d) = inl e ->
  executeAgent modelId agentName agentDescription rt prompt w =
    (inl e,
     addTrace w (executeEvents w agentDescription rt prompt llmPrompt out
                   ++ EvToolLookup toolName :: EvJsonParse params
                   :: encodeEvents pre entries
                   ++ [EvEncode (raw_value p) (pd_type d)])).
Proof.
  intros Hp Ht Hj Hall Hd He.
  rewrite (executeAgent_tool _ _ _ _ _ _ _ _ _ _ _ _ Hp Ht).
  unfold bind at 1.
  rewrite (parseParams_refused _ _ _ _ _ _ _ _ _ Hj Hall Hd He).
  by rewrite !addTrace_app.
Qed.

(** X9.  When the parsed step has no raw parameters and the aggregate
    encoder accepts the empty list, the [executeAgent] of
    [agent_execitor_precompile.py] answers a tool call with empty [params]
    and the aggregate encoding of no values, whatever the schema of the
    tool declares. *)
Theorem executeAgent_no_parameters
        w modelId agentName agentDescription rt prompt llmPrompt out
        toolName params reasoning t payload :
  asksTo w modelId agentDescription rt prompt llmPrompt out
         (ToolInvocation toolName params reasoning) ->
  indexBy tool_name (catalog w) !! toolName = Some t ->
  json_parse params = inr [] ->
  abi_encode_all [] = inr payload ->
  executeAgent modelId agentName agentDescription rt prompt w =
    (inr (toolCallResult t {| IERCAgentTool.params := [];
                              abiEncodedParams := payload |} reasoning),
     addTrace w (executeEvents w agentDescription rt prompt llmPrompt out
                   ++ [EvToolLookup toolName; EvJsonParse params;
                       EvEncodeAll []])).
Proof.
  intros Hp Ht Hj Hagg.
  rewrite (executeAgent_tool _ _ _ _ _ _ _ _ _ _ _ _ Hp Ht).
  unfold bind at 1.
  rewrite (parseParams_resolved _ _ [] [] _ Hj (List.Forall2_nil _)).
  unfold bind at 1. rewrite encodeParams_none, Hagg. mstep.
  by rewrite !addTrace_app.
Qed.

(** X23.  When the parsed step has raw parameters and all of them
    resolve, the [executeAgent] of [agent_execitor_precompile.py] encodes
    each of them and then ends with the [AttributeError] of [.value], read
    on a key of [parsedParams] (line 34): the aggregate encoder is not
    called and no result is returned. *)
Theorem executeAgent_parameters_raise
        w modelId agentName agentDescription rt prompt llmPrompt out
        toolName params reasoning t raw entries :
  asksTo w modelId agentDescription rt prompt llmPrompt out
         (ToolInvocation toolName params reasoning) ->
  indexBy tool_name (catalog w) !! toolName = Some t ->
  json_parse params = inr raw ->
  raw <> [] ->
  Forall2 (resolvesTo (toolInputByName t)) raw entries ->
  executeAgent modelId agentName agentDescription rt prompt w =
    (inl (AttributeError "value"),
     addTrace w (executeEvents w agentDescription rt prompt llmPrompt out
                   ++ EvToolLookup toolName :: EvJsonParse params
                   :: encodeEvents raw entries)).
Proof.
  intros Hp Ht Hj Hraw Hall.
  rewrite (executeAgent_tool _ _ _ _ _ _ _ _ _ _ _ _ Hp Ht).
  unfold bind at 1.
  rewrite (parseParams_resolved _ _ _ _ _ Hj Hall).
  unfold bind at 1. rewrite encodeParams_some.
  - by rewrite !addTrace_app.
  - apply dict_of_entries_not_nil. right.
    destruct Hall; [done | discriminate].
Qed.

(** What a run of [executeAgent] that answered a result went through. *)
Lemma executeAgent_inv w modelId agentName agentDescription rt prompt r :
  (executeAgent modelId agentName agentDescription rt prompt w).1 = inr r ->
  exists llmPrompt out step,
    asksTo w modelId agentDescription rt prompt llmPrompt out step /\
    match step with
    | Finished answer => r = finalResult answer
    | ToolInvocation toolName params reasoning =>
        exists t payload,
          indexBy tool_name (catalog w) !! toolName = Some t /\
          json_parse params = inr [] /\
          abi_encode_all [] = inr payload /\
          r = toolCallResult t {| IERCAgentTool.params := [];
                                  abiEncodedParams := payload |} reasoning
    end.
Proof.
  destruct (reasoningRegistry w !! RE_ACT) as [engine |] eqn:He;
    [| unfold Execitor.executeAgent, askModel; mstep; by rewrite He].
  destruct (modelRegistry w !! modelId) as [handle |] eqn:Hm;
    [| unfold Execitor.executeAgent, askModel; mstep; by rewrite He, Hm].
  set (llmPrompt := buildPrompt engine agentDescription (catalog w) rt prompt).
  destruct (run handle llmPrompt) as [e | out] eqn:Hrun;
    [unfold Execitor.executeAgent, askModel; mstep; rewrite He, Hm; simpl;
     fold llmPrompt; by rewrite Hrun |].
  destruct (parse engine out) as [e | step] eqn:Hparse;
    [unfold Execitor.executeAgent, askModel; mstep; rewrite He, Hm; simpl;
     fold llmPrompt; rewrite Hrun; simpl; by rewrite Hparse |].
  assert (Hp : asksTo w modelId agentDescription rt prompt llmPrompt out step)
    by (by exists handle, engine).
  intros Hr. exists llmPrompt, out, step. split; [done |].
  destruct step as [answer | toolName params reasoning].
  - unfold Execitor.executeAgent, bind in Hr.
    rewrite (askModel_asked _ _ _ _ _ _ _ _ Hp) in Hr. simpl in Hr.
    by injection Hr as <-.
  - destruct (indexBy tool_name (catalog w) !! toolName) as [t |] eqn:Ht.
    2: { unfold Execitor.executeAgent, bind in Hr.
         rewrite (askModel_asked _ _ _ _ _ _ _ _ Hp) in Hr. simpl in Hr.
         by rewrite Ht in Hr. }
    rewrite (executeAgent_tool _ _ _ _ _ _ _ _ _ _ _ _ Hp Ht) in Hr.
    unfold bind at 1 in Hr.
    destruct (parseParams t params _) as [[e | parsedParams] w1] eqn:Hparams;
      [done |].
    assert (Hinv : (parseParams t params
                      (addTrace w
                         (executeEvents w agentDescription rt prompt llmPrompt
                            out ++ [EvToolLookup toolName]))).1
                   = inr parsedParams) by (by rewrite Hparams).
    apply parseParams_inv in Hinv as (raw & entries & Hj & Hall & ->).
    destruct Hall as [| p en raw entries Hp1 Hall].
    + unfold bind at 1 in Hr. rewrite encodeParams_none in Hr.
      destruct (abi_encode_all []) as [e | payload] eqn:Hagg; [done |].
      revert Hr. mstep. intros [= <-]. by exists t, payload.
    + unfold bind at 1 in Hr. rewrite encodeParams_some in Hr; [done |].
      apply dict_of_entries_not_nil. by right.
Qed.

End ExecuteAgent.

Section ExecuteAgentResults.

Variable abi_encode : RawValue -> TypeTag -> Failure + bytes.
Variable abi_encode_all : list bytes -> Failure + bytes.
Variable json_parse : string -> Failure + list RawParam.

Local Abbreviation resolveParams := (resolveParams abi_encode).
Local Abbreviation parseParams := (parseParams abi_encode json_parse).
Local Abbreviation executeAgent :=
  (Execitor.executeAgent abi_encode abi_encode_all json_parse).

(** The first call of the loop is the encoding of the first raw
    parameter, at the type that the index holds for its name. *)
Lemma resolveParams_first_call idx p rest d acc w :
  idx !! raw_name p = Some d ->
  exists evs,
    (resolveParams idx (p :: rest) acc w).2 =
      addTrace w (EvEncode (raw_value p) (pd_type d) :: evs).
Proof.
  intros Hd. simpl. mstep. rewrite Hd. simpl.
  destruct (abi_encode (raw_value p) (pd_type d)) as [e | b]; simpl.
  - by exists [].
  - match goal with
    | |- context [resolveParams idx rest ?acc' ?w'] =>
        destruct (frames_resolveParams abi_encode idx rest acc' w')
          as [evs Hevs]
    end.
    exists evs. by rewrite Hevs, addTrace_app.
Qed.

(** X7.  When the catalog has several tools of the parsed name, a result
    of the [executeAgent] of [agent_execitor_precompile.py] carries the
    last of them. *)
Theorem executeAgent_last_tool_wins
        w modelId agentName agentDescription rt prompt llmPrompt out
        toolName params reasoning pre t post r :
  asksTo w modelId agentDescription rt prompt llmPrompt out
         (ToolInvocation toolName params reasoning) ->
  catalog w = pre ++ t :: post ->
  tool_name t = toolName ->
  toolName ∉ map tool_name post ->
  (executeAgent modelId agentName agentDescription rt prompt w).1 = inr r ->
  tool r = Some t.
Proof.
  intros Hp Hcat Hname Hpost Hr.
  assert (Ht : indexBy tool_name (catalog w) !! toolName = Some t).
  { rewrite Hcat, <- Hname. apply indexBy_last. by rewrite Hname. }
  apply executeAgent_inv in Hr as (llmPrompt' & out' & step & Hp' & Hstep).
  destruct Hp as (h & en & Hm & He & -> & Hrun & Hparse).
  destruct Hp' as (h' & en' & Hm' & He' & -> & Hrun' & Hparse').
  rewrite Hm in Hm'. rewrite He in He'.
  injection Hm' as Hh. injection He' as Hen. subst h' en'.
  rewrite Hrun in Hrun'. injection Hrun' as Hout. subst out'.
  rewrite Hparse in Hparse'. injection Hparse' as Hs. subst step.
  destruct Hstep as (t' & payload & Ht' & _ & _ & Hres). subst r. simpl.
  rewrite Ht in Ht'. congruence.
Qed.


(** X10.  The tool that a result of the [executeAgent] of
    [agent_execitor_precompile.py] carries is a tool of the catalog. *)
Theorem executeAgent_tool_of_catalog
        w modelId agentName agentDescription rt prompt r t :
  (executeAgent modelId agentName agentDescription rt prompt w).1 = inr r ->
  tool r = Some t ->
  t ∈ catalog w.
Proof.
  intros Hr Htool.
  apply executeAgent_inv in Hr as (llmPrompt & out & step & _ & Hstep).
  destruct step as [answer | toolName params reasoning].
  - by subst r.
  - destruct Hstep as (t' & payload & Ht' & _ & _ & ->). simpl in Htool.
    injection Htool as ->. by apply indexBy_Some_key in Ht' as [Hin _].
Qed.

(** X11.  A tool-call result of the [executeAgent] of
    [agent_execitor_precompile.py] never holds a parameter: its [params]
    are empty and its [abiEncodedParams] is the aggregate encoding of no
    values, since line 34 raises as soon as a parameter was parsed. *)
Theorem executeAgent_results_hold_no_parameters
        w modelId agentName agentDescription rt prompt t input reasoning :
  (executeAgent modelId agentName agentDescription rt prompt w).1 =
    inr (toolCallResult t input reasoning) ->
  IERCAgentTool.params input = [] /\
  abi_encode_all [] = inr (abiEncodedParams input).
Proof.
  intros Hr.
  apply executeAgent_inv in Hr as (llmPrompt & out & step & _ & Hstep).
  destruct step as [answer | toolName params reasoning']; [done |].
  by destruct Hstep as (t' & payload & _ & _ & Hagg & [= -> -> ->]).
Qed.

End ExecuteAgentResults.

(** * Runs of the [transfer] scenario *)

Lemma Scenario_parsesTo w modelPrompt :
  modelRegistry w !! "m" = Some Scenario.llm ->
  reasoningRegistry w !! RE_ACT = Some Scenario.reAct ->
  modelPrompt <> "final" -> modelPrompt <> "exchange" ->
  parsesTo w "m" "agent" "" modelPrompt modelPrompt modelPrompt
           (ToolInvocation "transfer" modelPrompt "pay").
Proof.
  intros Hm He H1 H2. exists Scenario.llm, Scenario.reAct.
  repeat split; try done. simpl.
  apply String.eqb_neq in H1, H2. by rewrite H1, H2.
Qed.

Lemma Scenario_asksTo modelPrompt :
  modelPrompt <> "final" -> modelPrompt <> "exchange" ->
  asksTo Scenario.world "m" "pays" "" modelPrompt modelPrompt modelPrompt
         (ToolInvocation "transfer" modelPrompt "pay").
Proof.
  intros H1 H2. exists Scenario.llm, Scenario.reAct.
  repeat split; try reflexivity. simpl.
  apply String.eqb_neq in H1, H2. by rewrite H1, H2.
Qed.

Lemma Scenario_transfer_indexed :
  indexBy tool_name (catalog Scenario.world) !! "transfer"
  = Some Scenario.transfer.
Proof. vm_compute. reflexivity. Qed.

Lemma Scenario_resolves (raw : RawParam) (d : ParamDescription) :
  toolInputByName Scenario.transfer !! raw_name raw = Some d ->
  resolvesTo Scenario.enc (toolInputByName Scenario.transfer) raw
             (Scenario.entry (raw_name raw) (pd_type d) (raw_value raw)).
Proof. intros Hd. by exists d, (Scenario.text (raw_value raw)). Qed.

Lemma Faults_asksTo w modelPrompt :
  modelRegistry w !! "m" = Some Scenario.llm ->
  reasoningRegistry w !! RE_ACT = Some Faults.strict ->
  modelPrompt <> "garbage" ->
  asksTo w "m" "pays" "" modelPrompt modelPrompt modelPrompt
         (ToolInvocation "transfer" modelPrompt "pay").
Proof.
  intros Hm He Hne. exists Scenario.llm, Faults.strict.
  repeat split; try done. simpl.
  apply String.eqb_neq in Hne. by rewrite Hne.
Qed.

Lemma Faults_resolves idx (raw : RawParam) (d : ParamDescription) :
  raw_value raw <> "ten" ->
  idx !! raw_name raw = Some d ->
  resolvesTo Faults.enc idx raw
             (Scenario.entry (raw_name raw) (pd_type d) (raw_value raw)).
Proof.
  intros Hne Hd. exists d, (Scenario.text (raw_value raw)).
  repeat split; [done |]. unfold Faults.enc.
  apply String.eqb_neq in Hne. by rewrite Hne.
Qed.

Lemma Faults_transfer_indexed :
  indexBy tool_name (catalog Faults.world) !! "transfer"
  = Some Scenario.transfer.
Proof. vm_compute. reflexivity. Qed.

(** ** The claims that the code does not keep *)

(** C1, at the input that fails.  The catalog holds [transfer], whose
    schema is [to, amount], and the raw parameters are [amount, to].  The
    aggregate encoding in schema order would be that of [0xABC] and [100];
    [runNextIteration] ends at line 19 with the [AttributeError] of
    [tool.name], before any prompt is built, and answers no payload.  On
    the same input the [executeAgent] of [agent_execitor_precompile.py],
    which has the same last comprehension, encodes both parameters and
    ends with the [AttributeError] of [.value] without calling the
    aggregate encoder. *)
Theorem C1_no_payload_is_produced :
  let schema := paramDescriptions (tool_inputDescription Scenario.transfer) in
  let raw := [Scenario.amount100; Scenario.toABC] in
  Scenario.jp "amount,to" = inr raw /\
  map raw_name raw ≡ₚ map pd_name schema /\
  spec_encodedPayload Scenario.enc Scenario.encAll schema raw
    = Some (Scenario.text "0xABC100") /\
  Scenario.iteration "m" "amount,to"
    = (inl (AttributeError "name"), Scenario.world) /\
  payloadOf (Scenario.iteration "m" "amount,to").1 = None /\
  (Scenario.execitor "amount,to").1 = inl (AttributeError "value") /\
  trace (Scenario.execitor "amount,to").2 =
    [EvBuildPrompt "pays" [Scenario.transfer] "" "amount,to";
     EvRun "amount,to"; EvParse "amount,to"; EvToolLookup "transfer";
     EvJsonParse "amount,to"; EvEncode "100" "integer";
     EvEncode "0xABC" "address"].
Proof.
  simpl. split; [reflexivity |]. split; [apply perm_swap |].
  split; [vm_compute; reflexivity |].
  split; [by apply runNextIteration_tools |].
  repeat split; vm_compute; reflexivity.
Qed.

(** C6, at the input that fails.  The catalog holds [transfer] and the
    model output parses to the finished step with the answer 42;
    [runNextIteration] ends at line 19 with the [AttributeError] of
    [tool.name] before any prompt is built, and answers nothing.  With no
    tools in the catalog the same output is answered. *)
Theorem C6_finished_step_is_not_answered :
  parse Scenario.reAct "final" = inr (Finished "42") /\
  Scenario.iteration "m" "final"
    = (inl (AttributeError "name"), Scenario.world) /\
  (Scenario.bareIteration "m" "final").1 = inr (finalResult "42").
Proof.
  split; [reflexivity |].
  split; [by apply runNextIteration_tools | vm_compute; reflexivity].
Qed.

(** C9, at the input that fails.  The raw list names [amount] twice.  The
    loop of lines 34-38 leaves in [parsedParams] one entry for [amount],
    with the encoding of the last value, 7; but [runNextIteration] does
    not reach the loop, since line 19 raises, and the [executeAgent] of
    [agent_execitor_precompile.py], which does, raises on its line 34. *)
Theorem C9_duplicates_raise :
  let raw := [Scenario.amount100; Scenario.amount7; Scenario.toABC] in
  Scenario.jp "amount,amount,to" = inr raw /\
  Scenario.iteration "m" "amount,amount,to"
    = (inl (AttributeError "name"), Scenario.world) /\
  (resolveParams Scenario.enc (toolInputByName Scenario.transfer) raw []
     Scenario.world).1 =
    inr [Scenario.entry "amount" "integer" "7";
         Scenario.entry "to" "address" "0xABC"] /\
  (Scenario.execitor "amount,amount,to").1 = inl (AttributeError "value").
Proof.
  simpl. split; [reflexivity |].
  split; [by apply runNextIteration_tools |].
  split; vm_compute; reflexivity.
Qed.

(** C10, at an input that fails.  The model output parses to the finished
    step: the [executeAgent] of [agent_execitor_precompile.py] answers the
    final result, that of [precompile.py] does not exist, the module being
    a [SyntaxError]. *)
Theorem C10_precompile_answers_nothing :
  (Scenario.execitor "final").1 = inr (finalResult "42") /\
  (Scenario.precompile "final").1 = inl SyntaxError /\
  (Scenario.execitor "final").1 <> (Scenario.precompile "final").1.
Proof.
  split; [vm_compute; reflexivity |]. split; [reflexivity |].
  vm_compute. intros H. discriminate H.
Qed.

(** ** The claims that are corrected *)

(** C2, against the claim.  The schema parameter [to] has no raw entry;
    the iteration fails, and not with [MissingParameter "to"]. *)
Lemma C2_counterexample_not_MissingParameter :
  Scenario.jp "amount" = inr [Scenario.amount100] /\
  {| pd_name := "to"; pd_type := "address" |}
    ∈ paramDescriptions (tool_inputDescription Scenario.transfer) /\
  ("to" ∉ map raw_name [Scenario.amount100]) /\
  (Scenario.iteration "m" "amount").1 = inl (AttributeError "name") /\
  (Scenario.iteration "m" "amount").1 <> inl (MissingParameter "to").
Proof.
  split; [reflexivity |]. split; [simpl; left |].
  split; [simpl; compute_done |].
  split; [vm_compute; reflexivity | vm_compute; intros H; discriminate H].
Qed.

Lemma C2_fails_without_MissingParameter_witness :
  exists e evs,
    Scenario.iteration "m" "amount" = (inl e, addTrace Scenario.world evs) /\
    (forall name, e <> MissingParameter name) /\
    countEvents isEncodeAll evs = 0.
Proof.
  apply (C2_fails_without_MissingParameter
           Scenario.enc Scenario.encAll Scenario.jp
           Scenario.world "m" "agent" "" "amount" "amount" "amount"
           "transfer" "amount" "pay"
           Scenario.transfer [Scenario.amount100]
           {| pd_name := "to"; pd_type := "address" |}).
  - apply Scenario_parsesTo; [vm_compute; reflexivity .. | discriminate
                             | discriminate].
  - simpl. left.
  - reflexivity.
  - reflexivity.
  - simpl. left.
  - simpl. compute_done.
Defined.

(** C3, against the claim.  The raw name [memo] is not in the schema; the
    iteration fails, and not with [UnknownParameter "memo"]. *)
Lemma C3_counterexample_not_UnknownParameter :
  Scenario.jp "amount,to,memo"
    = inr [Scenario.amount100; Scenario.toABC; Scenario.memoHi] /\
  ("memo" ∉ map pd_name
             (paramDescriptions (tool_inputDescription Scenario.transfer))) /\
  (Scenario.iteration "m" "amount,to,memo").1 = inl (AttributeError "name") /\
  (Scenario.iteration "m" "amount,to,memo").1 <> inl (UnknownParameter "memo").
Proof.
  split; [reflexivity |]. split; [simpl; compute_done |].
  split; [vm_compute; reflexivity | vm_compute; intros H; discriminate H].
Qed.

Lemma C3_fails_without_UnknownParameter_witness :
  exists e evs,
    Scenario.iteration "m" "amount,to,memo"
      = (inl e, addTrace Scenario.world evs) /\
    (forall name, e <> UnknownParameter name) /\
    (forall r, (Scenario.iteration "m" "amount,to,memo").1 <> inr r) /\
    countEvents isEncodeAll evs = 0.
Proof.
  apply (C3_fails_without_UnknownParameter
           Scenario.enc Scenario.encAll Scenario.jp
           Scenario.world "m" "agent" "" "amount,to,memo" "amount,to,memo"
           "amount,to,memo" "transfer" "amount,to,memo" "pay"
           Scenario.transfer
           [Scenario.amount100; Scenario.toABC; Scenario.memoHi]
           Scenario.memoHi).
  - apply Scenario_parsesTo; [vm_compute; reflexivity .. | discriminate
                             | discriminate].
  - simpl. left.
  - reflexivity.
  - reflexivity.
  - simpl. do 2 right. left.
  - simpl. compute_done.
Defined.

(** C4, against the claim.  With no tools, the identifier [ghost] is not
    in the model registry; the prompt builder is called, and the iteration
    ends with the [AttributeError] of [llm.run], not with
    [UnknownModel]. *)
Lemma C4_counterexample_prompt_is_built :
  modelRegistry Scenario.bare !! "ghost" = None /\
  (Scenario.bareIteration "ghost" "amount,to").1
    = inl (AttributeError "run") /\
  (Scenario.bareIteration "ghost" "amount,to").1 <> inl UnknownModel /\
  trace (Scenario.bareIteration "ghost" "amount,to").2
    = [EvBuildPrompt "agent" [] "" "amount,to"] /\
  existsb isBuildPrompt (trace (Scenario.bareIteration "ghost" "amount,to").2)
    = true.
Proof.
  split; [vm_compute; reflexivity |]. split; [vm_compute; reflexivity |].
  split; [vm_compute; intros H; discriminate H |].
  split; vm_compute; reflexivity.
Qed.

Lemma C4_unknown_model_is_not_checked_witness :
  (exists e evs,
      Scenario.bareIteration "ghost" "amount,to"
        = (inl e, addTrace Scenario.bare evs) /\
      e <> UnknownModel /\
      countEvents isRun evs = 0) /\
  (catalog Scenario.bare = [] ->
   Scenario.bareIteration "ghost" "amount,to" =
     match reasoningRegistry Scenario.bare !! RE_ACT with
     | Some engine =>
         (inl (AttributeError "run"),
          addTrace Scenario.bare [EvBuildPrompt "agent" [] "" "amount,to"])
     | None => (inl (AttributeError "buildPrompt"), Scenario.bare)
     end).
Proof.
  apply (C4_unknown_model_is_not_checked
           Scenario.enc Scenario.encAll Scenario.jp
           Scenario.bare "ghost" "agent" "" "amount,to").
  vm_compute. reflexivity.
Defined.

(** C5, against the claim.  With no tools, the parsed tool name [swap]
    matches no tool of the catalog; the iteration ends with the
    [AttributeError] of [tool.inputDescription], not with
    [UnknownTool]. *)
Lemma C5_counterexample_bare_error :
  parse Scenario.reAct "exchange"
    = inr (ToolInvocation "swap" "amount,to" "exchange") /\
  ("swap" ∉ map tool_name (catalog Scenario.bare)) /\
  (Scenario.bareIteration "m" "exchange").1
    = inl (AttributeError "inputDescription") /\
  (Scenario.bareIteration "m" "exchange").1 <> inl UnknownTool.
Proof.
  split; [reflexivity |]. split; [simpl; compute_done |].
  split; [vm_compute; reflexivity | vm_compute; intros H; discriminate H].
Qed.

Lemma C5_unknown_tool_is_an_AttributeError_witness :
  (exists attr evs,
      Scenario.bareIteration "m" "exchange"
        = (inl (AttributeError attr), addTrace Scenario.bare evs) /\
      structured (AttributeError attr) = false /\
      AttributeError attr <> UnknownTool /\
      countEvents isEncode evs = 0 /\ countEvents isEncodeAll evs = 0) /\
  (catalog Scenario.bare = [] ->
   Scenario.bareIteration "m" "exchange" =
     (inl (AttributeError "inputDescription"),
      addTrace Scenario.bare
        (askEvents Scenario.bare "agent" "" "exchange" "exchange" "exchange"
           ++ [EvToolLookup "swap"]))).
Proof.
  apply (C5_unknown_tool_is_an_AttributeError
           Scenario.enc Scenario.encAll Scenario.jp
           Scenario.bare "m" "agent" "" "exchange" "exchange" "exchange"
           "swap" "amount,to" "exchange").
  - exists Scenario.llm, Scenario.reAct. repeat split; reflexivity.
  - simpl. compute_done.
Defined.

(** ** Runs for the further properties *)

Lemma runNextIteration_tools_raise_witness :
  Scenario.iteration "m" "final" = (inl (AttributeError "name"), Scenario.world).
Proof.
  apply (runNextIteration_tools_raise Scenario.enc Scenario.encAll Scenario.jp
           Scenario.world "m" "agent" "" "final").
  discriminate.
Defined.

Lemma runNextIteration_engine_missing_witness :
  Faults.iteration Faults.noEngine "m" "to" =
    (inl (AttributeError "buildPrompt"), Faults.noEngine).
Proof.
  apply (runNextIteration_engine_missing Faults.enc Faults.encAll Faults.jp
           Faults.noEngine "m" "agent" "" "to").
  - reflexivity.
  - vm_compute. reflexivity.
Defined.

Lemma runNextIteration_run_fails_witness :
  Faults.iteration Faults.bare "down" "to" =
    (inl ModelUnavailable,
     addTrace Faults.bare [EvBuildPrompt "agent" [] "" "to"; EvRun "to"]).
Proof.
  apply (runNextIteration_run_fails Faults.enc Faults.encAll Faults.jp
           Faults.bare "down" "agent" "" "to" Faults.down Faults.strict
           ModelUnavailable).
  - reflexivity.
  - vm_compute. reflexivity.
  - vm_compute. reflexivity.
  - reflexivity.
Defined.

Lemma runNextIteration_parse_fails_witness :
  Faults.iteration Faults.bare "m" "garbage" =
    (inl UnparsableOutput,
     addTrace Faults.bare
       [EvBuildPrompt "agent" [] "" "garbage"; EvRun "garbage";
        EvParse "garbage"]).
Proof.
  apply (runNextIteration_parse_fails Faults.enc Faults.encAll Faults.jp
           Faults.bare "m" "agent" "" "garbage" Scenario.llm Faults.strict
           "garbage" UnparsableOutput).
  - reflexivity.
  - vm_compute. reflexivity.
  - vm_compute. reflexivity.
  - reflexivity.
  - reflexivity.
Defined.

Lemma runNextIteration_bare_finished_witness :
  Scenario.bareIteration "m" "final" =
    (inr (finalResult "42"),
     addTrace Scenario.bare
       [EvBuildPrompt "agent" [] "" "final"; EvRun "final"; EvParse "final"]).
Proof.
  apply (runNextIteration_bare_finished
           Scenario.enc Scenario.encAll Scenario.jp
           Scenario.bare "m" "agent" "" "final" "final" "final" "42").
  - reflexivity.
  - exists Scenario.llm, Scenario.reAct. repeat split; reflexivity.
Defined.

Lemma Scenario_bare_final_run :
  (Scenario.bareIteration "m" "final").1 = inr (finalResult "42").
Proof. vm_compute. reflexivity. Qed.

Lemma runNextIteration_only_final_answers_witness :
  catalog Scenario.bare = [] /\
  exists llmPrompt out answer,
    parsesTo Scenario.bare "m" "agent" "" "final" llmPrompt out
             (Finished answer) /\
    finalResult "42" = finalResult answer.
Proof.
  exact (runNextIteration_only_final_answers
           Scenario.enc Scenario.encAll Scenario.jp
           Scenario.bare "m" "agent" "" "final" _ Scenario_bare_final_run).
Defined.

Lemma Scenario_tools_run :
  (Scenario.iteration "m" "amount,to").1 = inl (AttributeError "name").
Proof. vm_compute. reflexivity. Qed.

Lemma runNextIteration_failure_causes_witness :
  let e := AttributeError "name" in
  let w := Scenario.world in
  (e = AttributeError "name" /\ catalog w <> []) \/
  (catalog w = [] /\
   ((e = AttributeError "buildPrompt" /\
     reasoningRegistry w !! RE_ACT = None) \/
    (e = AttributeError "run" /\ modelRegistry w !! "m" = None /\
     reasoningRegistry w !! RE_ACT <> None) \/
    (e = AttributeError "inputDescription" /\
     exists llmPrompt out toolName params reasoning,
       parsesTo w "m" "agent" "" "amount,to" llmPrompt out
                (ToolInvocation toolName params reasoning)) \/
    (exists handle engine,
        modelRegistry w !! "m" = Some handle /\
        reasoningRegistry w !! RE_ACT = Some engine /\
        run handle (buildPrompt engine "agent" [] "" "amount,to") = inl e) \/
    (exists handle engine out,
        modelRegistry w !! "m" = Some handle /\
        reasoningRegistry w !! RE_ACT = Some engine /\
        run handle (buildPrompt engine "agent" [] "" "amount,to") = inr out /\
        parse engine out = inl e))).
Proof.
  exact (runNextIteration_failure_causes
           Scenario.enc Scenario.encAll Scenario.jp
           Scenario.world "m" "agent" "" "amount,to" _ Scenario_tools_run).
Defined.

Lemma executeAgent_finished_witness :
  Scenario.execitor "final" =
    (inr (finalResult "42"),
     addTrace Scenario.world
       [EvBuildPrompt "pays" [Scenario.transfer] "" "final";
        EvRun "final"; EvParse "final"]).
Proof.
  apply (executeAgent_finished Scenario.enc Scenario.encAll Scenario.jp
           Scenario.world "m" "agent" "pays" "" "final" "final" "final" "42").
  exists Scenario.llm, Scenario.reAct. repeat split; reflexivity.
Defined.

Lemma executeAgent_unknown_model_witness :
  Scenario.execute "ghost" "amount,to" =
    (inl (AttributeError "run"),
     addTrace Scenario.world
       [EvBuildPrompt "pays" [Scenario.transfer] "" "amount,to"]).
Proof.
  apply (executeAgent_unknown_model Scenario.enc Scenario.encAll Scenario.jp
           Scenario.world "ghost" "agent" "pays" "" "amount,to").
  vm_compute. reflexivity.
Defined.

Lemma executeAgent_unknown_tool_witness :
  Scenario.execitor "exchange" =
    (inl (AttributeError "inputDescription"),
     addTrace Scenario.world
       [EvBuildPrompt "pays" [Scenario.transfer] "" "exchange";
        EvRun "exchange"; EvParse "exchange"; EvToolLookup "swap"]).
Proof.
  apply (executeAgent_unknown_tool Scenario.enc Scenario.encAll Scenario.jp
           Scenario.world "m" "agent" "pays" "" "exchange" "exchange"
           "exchange" "swap" "amount,to" "exchange").
  - exists Scenario.llm, Scenario.reAct. repeat split; reflexivity.
  - simpl. compute_done.
Defined.

Lemma executeAgent_json_fails_witness :
  Faults.execute Faults.world "m" "nonsense" =
    (inl UnparsableOutput,
     addTrace Faults.world
       [EvBuildPrompt "pays" [Scenario.transfer] "" "nonsense";
        EvRun "nonsense"; EvParse "nonsense";
        EvToolLookup "transfer"; EvJsonParse "nonsense"]).
Proof.
  apply (executeAgent_json_fails Faults.enc Faults.encAll Faults.jp
           Faults.world "m" "agent" "pays" "" "nonsense" "nonsense" "nonsense"
           "transfer" "nonsense" "pay" Scenario.transfer UnparsableOutput).
  - apply Faults_asksTo; [vm_compute; reflexivity .. | discriminate].
  - exact Faults_transfer_indexed.
  - reflexivity.
Defined.

Lemma executeAgent_unknown_parameter_witness :
  Scenario.execitor "amount,to,memo" =
    (inl (KeyError "memo"),
     addTrace Scenario.world
       [EvBuildPrompt "pays" [Scenario.transfer] "" "amount,to,memo";
        EvRun "amount,to,memo"; EvParse "amount,to,memo";
        EvToolLookup "transfer"; EvJsonParse "amount,to,memo";
        EvEncode "100" "integer"; EvEncode "0xABC" "address"]).
Proof.
  apply (executeAgent_unknown_parameter
           Scenario.enc Scenario.encAll Scenario.jp
           Scenario.world "m" "agent" "pays" "" "amount,to,memo"
           "amount,to,memo" "amount,to,memo" "transfer" "amount,to,memo" "pay"
           Scenario.transfer [Scenario.amount100; Scenario.toABC]
           Scenario.memoHi []
           [Scenario.entry "amount" "integer" "100";
            Scenario.entry "to" "address" "0xABC"]).
  - apply Scenario_asksTo; discriminate.
  - exact Scenario_transfer_indexed.
  - reflexivity.
  - repeat constructor.
    + apply (Scenario_resolves Scenario.amount100
               {| pd_name := "amount"; pd_type := "integer" |}).
      vm_compute. reflexivity.
    + apply (Scenario_resolves Scenario.toABC
               {| pd_name := "to"; pd_type := "address" |}).
      vm_compute. reflexivity.
  - simpl. compute_done.
Defined.

Lemma executeAgent_encode_fails_witness :
  Faults.execute Faults.world "m" "to,amount,memo" =
    (inl (EncodingError "amount" "integer" "not a number"),
     addTrace Faults.world
       [EvBuildPrompt "pays" [Scenario.transfer] "" "to,amount,memo";
        EvRun "to,amount,memo"; EvParse "to,amount,memo";
        EvToolLookup "transfer"; EvJsonParse "to,amount,memo";
        EvEncode "0xABC" "address"; EvEncode "ten" "integer"]).
Proof.
  apply (executeAgent_encode_fails Faults.enc Faults.encAll Faults.jp
           Faults.world "m" "agent" "pays" "" "to,amount,memo"
           "to,amount,memo" "to,amount,memo" "transfer" "to,amount,memo"
           "pay" Scenario.transfer [Scenario.toABC] Faults.amountTen
           [Scenario.memoHi] [Scenario.entry "to" "address" "0xABC"]
           {| pd_name := "amount"; pd_type := "integer" |}).
  - apply Faults_asksTo; [vm_compute; reflexivity .. | discriminate].
  - exact Faults_transfer_indexed.
  - reflexivity.
  - repeat constructor.
    apply (Faults_resolves _ Scenario.toABC
             {| pd_name := "to"; pd_type := "address" |});
      [discriminate | vm_compute; reflexivity].
  - vm_compute. reflexivity.
  - reflexivity.
Defined.

Lemma executeAgent_no_parameters_witness :
  Faults.execute Faults.world "m" "" =
    (inr (toolCallResult Scenario.transfer
            {| IERCAgentTool.params := []; abiEncodedParams := [] |} "pay"),
     addTrace Faults.world
       [EvBuildPrompt "pays" [Scenario.transfer] "" "";
        EvRun ""; EvParse ""; EvToolLookup "transfer"; EvJsonParse "";
        EvEncodeAll []]).
Proof.
  apply (executeAgent_no_parameters Faults.enc Faults.encAll Faults.jp
           Faults.world "m" "agent" "pays" "" "" "" "" "transfer" "" "pay"
           Scenario.transfer []).
  - apply Faults_asksTo; [vm_compute; reflexivity .. | discriminate].
  - exact Faults_transfer_indexed.
  - reflexivity.
  - reflexivity.
Defined.

Lemma executeAgent_parameters_raise_witness :
  Scenario.execitor "amount,to" =
    (inl (AttributeError "value"),
     addTrace Scenario.world
       [EvBuildPrompt "pays" [Scenario.transfer] "" "amount,to";
        EvRun "amount,to"; EvParse "amount,to";
        EvToolLookup "transfer"; EvJsonParse "amount,to";
        EvEncode "100" "integer"; EvEncode "0xABC" "address"]).
Proof.
  apply (executeAgent_parameters_raise
           Scenario.enc Scenario.encAll Scenario.jp
           Scenario.world "m" "agent" "pays" "" "amount,to" "amount,to"
           "amount,to" "transfer" "amount,to" "pay" Scenario.transfer
           [Scenario.amount100; Scenario.toABC]
           [Scenario.entry "amount" "integer" "100";
            Scenario.entry "to" "address" "0xABC"]).
  - apply Scenario_asksTo; discriminate.
  - exact Scenario_transfer_indexed.
  - reflexivity.
  - discriminate.
  - repeat constructor.
    + apply (Scenario_resolves Scenario.amount100
               {| pd_name := "amount"; pd_type := "integer" |}).
      vm_compute. reflexivity.
    + apply (Scenario_resolves Scenario.toABC
               {| pd_name := "to"; pd_type := "address" |}).
      vm_compute. reflexivity.
Defined.

Lemma Faults_two_transfers_run :
  (Faults.execute Faults.twoTransfers "m" "").1 =
    inr (toolCallResult Faults.transfer2
           {| IERCAgentTool.params := []; abiEncodedParams := [] |} "pay").
Proof. vm_compute. reflexivity. Qed.

Lemma executeAgent_last_tool_wins_witness :
  tool (toolCallResult Faults.transfer2
          {| IERCAgentTool.params := []; abiEncodedParams := [] |} "pay")
  = Some Faults.transfer2.
Proof.
  apply (executeAgent_last_tool_wins Faults.enc Faults.encAll Faults.jp
           Faults.twoTransfers "m" "agent" "pays" "" "" "" ""
           "transfer" "" "pay" [Scenario.transfer] Faults.transfer2 []).
  - apply Faults_asksTo; [vm_compute; reflexivity .. | discriminate].
  - reflexivity.
  - reflexivity.
  - simpl. compute_done.
  - exact Faults_two_transfers_run.
Defined.


Lemma executeAgent_tool_of_catalog_witness :
  Faults.transfer2 ∈ catalog Faults.twoTransfers.
Proof.
  apply (executeAgent_tool_of_catalog Faults.enc Faults.encAll Faults.jp
           Faults.twoTransfers "m" "agent" "pays" "" "" _ Faults.transfer2
           Faults_two_transfers_run).
  reflexivity.
Defined.

Lemma executeAgent_results_hold_no_parameters_witness :
  IERCAgentTool.params
    {| IERCAgentTool.params := []; abiEncodedParams := [] |} = [] /\
  Faults.encAll [] =
    inr (abiEncodedParams
           {| IERCAgentTool.params := []; abiEncodedParams := [] |}).
Proof.
  exact (executeAgent_results_hold_no_parameters
           Faults.enc Faults.encAll Faults.jp
           Faults.twoTransfers "m" "agent" "pays" "" "" Faults.transfer2
           _ "pay" Faults_two_transfers_run).
Defined.
